(* ===== verification/_CoqProject ===== *)
-Q . S2P
Prelude.v
Logging.v
File.v
FileList.v
Compare.v
Walk.v
Main.v
