(* ===== verification/Prelude.v ===== *)
(** * A verification development of Python_folder-watcher ([src/Watch.py])

    The program polls a directory tree and writes to a log file one line
    per file or folder that was added, removed or modified since the
    previous poll.  [src/Watch.py] has four parts, and this development
    models each of them in its own file:

    - [log] (Watch.py 13-33): formats one message from the current date,
      a path and an integer option 1..4 and hands it to [logging.info].
      Modelled in [Logging.v]: [Logging.log_message] is the pure message,
      [Logging.log] the effectful call on any state with a log sink
      (the class [Logging.LogSink]).
    - class [File] (Watch.py 113-144): a path and the [os.stat] result of
      that path; [same_name] and [same_attributes].  Modelled in [File.v],
      together with the operating-system interface the code calls
      ([os.stat]) as the class [File.OsStat], so that every theorem on
      the file list is proved against that interface, whatever file
      system implements it.
    - class [FileList] (Watch.py 36-110): the in-memory model of the
      watched tree.  [list] is a class attribute: every instance reads and
      appends to the same Python list.  The operations are [length],
      [add], [add_list] and [compare], the diff algorithm.  Modelled in
      [FileList.v], whose state [FileList.World] holds the class-level
      list of [File] objects (each with its Python identity, so that
      [list.remove] and the in-place attribute update are modelled as the
      code performs them), the counter of identities, and the log sink.
      [Compare.v] holds the theorems on [compare].
    - [folder_analyze] (Watch.py 173-196): the scanner, a loop over
      [os.walk(local_folder, topdown=True)] whose body lists files (hidden
      ones excepted) and subdirectories and prunes [dirs] in place by the
      separator count of the directory's absolute path.  Modelled in
      [Walk.v] over a finite tree file system [Walk.tree_fs] (a map from
      absolute paths to files and directories with their entry names),
      which implements [File.OsStat]: [Walk.walk] fuses the generator with
      the loop body [Walk.analyze_body], [Walk.folder_analyze] runs it
      with fuel [Walk.walk_fuel].  The scanner feeds [compare]; the law
      that connects them is that every listed path can be stat'ed.
    - [main_function] (Watch.py 199-238) and the prompts
      [ask_folder_location], [ask_log_file_location] (147-170): argument
      validation with re-prompting over standard input, the clamping of
      [-d] and [-f], the first crawl and the endless polling loop.
      Modelled in [Main.v]: standard input is a list of lines; the
      start-up [Main.main_start] and one poll [Main.main_poll] are
      [PyM World] computations that take the tree walked and the tree
      [os.stat] sees (they may differ: the tree changes while the program
      runs); the program is the step relation [Main.main_step] on
      [Main.main_state] (watching, or stopped by an uncaught exception)
      and [Main.reachable] its runs from the start-up.

    ** Effects

    The Python code mutates shared objects and raises exceptions that
    nothing catches.  [Prelude.PyM S A] is a state-and-exception monad in
    which, as in Python, the state reached when an exception is raised is
    kept: a partial [compare] leaves its partial mutations and log lines
    behind.  [Prelude.py_for] is a Python [for] loop over a list that the
    body does not mutate.  The one loop over a list the body mutates (the
    removal loop of [compare]) is modelled with Python's list-iterator
    semantics (an index into the current list), with fuel; the fuel given
    at the call site, one more than the length of the list, is proved
    enough by the equivalence with a structural reference
    ([Compare.removal_loop_sweep]).

    ** What the theorems show (see [PROJECT.json] for the list)

    - [Compare.v]: the functional behaviour of [compare] on every branch,
      errors included; the refinement of its first pass by an abstract
      snapshot update on [gmap string stat_result]; the well-formedness
      invariant (unique identities, unique paths) preserved by every
      operation; the equivalence of the in-place removal loop with the
      structural [Compare.sweep], which makes precise the defect that the
      entry following a removed entry is never examined; convergence of
      repeated [compare] calls; for every list whose first two entries
      are stale, that the second survives one call and is reported by
      the next (the spec's convergence and idempotence claims fail); that
      a read-only access is reported as a modification.
      The end of [Compare.v] proves the run of [add_list], the first
      crawl, that the dead [self.length == 0] branch would agree with the
      general path, and that the class-level list is shared.
    - [Logging.v]: the log message of each option, and that a message can
      be parsed back into its path and option (round trip).
    - [Walk.v]: on a well-formed file system (entry names non-empty and
      without separator, distinct, each naming a node of the map) the
      scanner returns normally and lists exactly the paths of the
      inductive relation [Walk.emitted] (soundness and completeness);
      every listed path can be stat'ed; the depth bound; the hidden-file
      filter applies to files only (an entry of the root is listed iff
      it is a directory or not hidden); the fuel is enough; from a root
      with at least the maximum number of separators only the root's
      entries are listed (the depth test is on the absolute path); the
      listing has no duplicates.
    - [Main.v]: the prompt loops return the first existing path or raise
      [EOFError]; the outcome of argument validation; the clamps; by rule
      induction on [Main.reachable], the invariant of [Compare.wf] and an
      append-only log along every run over well-formed trees, and that
      the program never stops while the tree is quiescent between a scan
      and its stats; that a file deleted between the two stops it with
      [FileNotFoundError]; and that the loop catches up once the tree stops
      changing ([Main.main_run], more polls than tracked entries).

    ** Fuel

    - The removal loop of [compare] gets [length + 1]: each iteration
      either removes an entry or advances the index.
    - The prompt loops get one more than the number of input lines:
      each iteration reads a line or raises [EOFError].
    - [Walk.walk] gets [Z.to_nat subfolders_max_number + 2]: a directory
      other than the root ends with a name, so each level adds exactly one
      separator, and the body prunes [dirs] once the count reaches the
      maximum; [Walk.walk_fuel_enough] proves that more fuel changes
      nothing.

    ** Plan of the development (in order of importance)

    1. [FileList.compare] and its helpers (done): functional behaviour,
       invariants, refinement of pass 1, removal-loop equivalence,
       convergence, error behaviour.
    2. [FileList.add_list] and the first crawl (done).
    3. [Logging] round trip (done).
    4. [folder_analyze] over a finite file system (done): exact
       characterisation, stat-ability, depth bound, hidden filter, fuel.
       The listing has no duplicates (done).
    5. [main_function] and the prompts (done): validation, clamps,
       start-up and polling loop as a step relation, its invariants.
    6. Convergence of the polling loop once the tree stops changing
       (done, [Main.main_converges], from [Compare.compare_iter]).
    7. Planned: symbolic links in the scanner; a bound on the number of
       polls after which a change is reported.

    ** Not modelled

    [argparse] (its result is the record [Main.Args]), [print], the
    effect of [open(..., 'a')] (only its success is a parameter),
    [time.sleep] (the passing of time is the change of tree between
    steps) and the [logging] configuration other than the message text.
    Symbolic links are not in the tree model.  The current
    date ([datetime.now()]) is a parameter [now] fixed for one call.

    This file, [Prelude.v], holds what the components share: the Python
    exceptions, the state-and-exception monad with its laws and run
    lemmas (hint database [pyrun]), the [for] loop, and list lemmas. *)

From stdpp Require Import base list gmap strings.
From Stdlib Require Import ZArith.

Declare Scope py_scope.
Delimit Scope py_scope with py.

(** ** Python exceptions raised by the modelled code *)

Inductive exn : Type :=
  | FileNotFoundError (filename : string)
  | ValueError (msg : string)
  | UnboundLocalError (name : string)
  | IndexError (msg : string)
  | EOFError.

Inductive outcome (A : Type) : Type :=
  | Ok (a : A)
  | Raise (e : exn).
Arguments Ok {A} a.
Arguments Raise {A} e.

(** A computation reads a state and returns an outcome with the state
    reached, also when it raised. *)
Definition PyM (S A : Type) : Type := S -> outcome A * S.

#[export] Instance PyM_ret {S} : MRet (PyM S) := fun A a s => (Ok a, s).
#[export] Instance PyM_bind {S} : MBind (PyM S) := fun A B k m s =>
  match m s with
  | (Ok a, s') => k a s'
  | (Raise e, s') => (Raise e, s')
  end.
#[export] Instance PyM_throw {S} : MThrow exn (PyM S) := fun A e s => (Raise e, s).

Definition get {S} : PyM S S := fun s => (Ok s, s).
Definition put {S} (s : S) : PyM S unit := fun _ => (Ok (), s).
Definition modify {S} (f : S -> S) : PyM S unit := fun s => (Ok (), f s).

(** [for x in xs: body(x)], for a list [xs] the body does not mutate. *)
Fixpoint py_for {S X} (xs : list X) (body : X -> PyM S unit) : PyM S unit :=
  match xs with
  | [] => mret ()
  | x :: xs' => body x ;; py_for xs' body
  end.

(** Python's [x in xs] on a list of strings. *)
Definition py_in (x : string) (xs : list string) : bool :=
  existsb (String.eqb x) xs.

Notation "'raise' e" := (mthrow e) (at level 10) : py_scope.

(** ** Run lemmas *)

Section Run.
Context {S : Type}.

Lemma run_ret {A} (a : A) (s : S) : (mret a : PyM S A) s = (Ok a, s).
Proof. reflexivity. Qed.

Lemma run_bind {A B} (m : PyM S A) (k : A -> PyM S B) s :
  (m ≫= k) s = match m s with
               | (Ok a, s') => k a s'
               | (Raise e, s') => (Raise e, s')
               end.
Proof. reflexivity. Qed.

Lemma run_bind_ok {A B} (m : PyM S A) (k : A -> PyM S B) s a s' :
  m s = (Ok a, s') -> (m ≫= k) s = k a s'.
Proof. intros H. by rewrite run_bind, H. Qed.

Lemma run_bind_raise {A B} (m : PyM S A) (k : A -> PyM S B) s e s' :
  m s = (Raise e, s') -> (m ≫= k) s = (Raise e, s').
Proof. intros H. by rewrite run_bind, H. Qed.

Lemma run_get (s : S) : get s = (Ok s, s).
Proof. reflexivity. Qed.

Lemma run_put (s s0 : S) : put s s0 = (Ok (), s).
Proof. reflexivity. Qed.

Lemma run_modify f (s : S) : modify f s = (Ok (), f s).
Proof. reflexivity. Qed.

Lemma run_throw {A} e (s : S) : (mthrow e : PyM S A) s = (Raise e, s).
Proof. reflexivity. Qed.

Lemma bind_assoc {A B C} (m : PyM S A) (k : A -> PyM S B) (h : B -> PyM S C) s :
  ((m ≫= k) ≫= h) s = (m ≫= (fun a => k a ≫= h)) s.
Proof. rewrite !run_bind. by destruct (m s) as [[a|e] s']. Qed.

Lemma run_py_for_nil {X} (body : X -> PyM S unit) s : py_for [] body s = (Ok (), s).
Proof. reflexivity. Qed.

Lemma run_py_for_cons {X} (x : X) xs (body : X -> PyM S unit) s :
  py_for (x :: xs) body s = (body x ;; py_for xs body) s.
Proof. reflexivity. Qed.

(** A loop is the sequence of its two halves. *)
Lemma run_py_for_app {X} (xs ys : list X) (body : X -> PyM S unit) s :
  py_for (xs ++ ys) body s = (py_for xs body ;; py_for ys body) s.
Proof.
  revert s. induction xs as [|x xs IH]; intros s; [done|].
  simpl. rewrite !run_bind. destruct (body x s) as [[[]|e] s']; [|done].
  rewrite IH, !run_bind. done.
Qed.

(** An invariant of every iteration, also of one that raises, is an
    invariant of the loop, whatever its outcome. *)
Lemma py_for_preserves {X} (P : S -> Prop) (xs : list X) (body : X -> PyM S unit) s :
  (forall x s, x ∈ xs -> P s -> P (body x s).2) -> P s -> P (py_for xs body s).2.
Proof.
  revert s. induction xs as [|x xs IH]; intros s Hb Hs; [done|].
  simpl. rewrite run_bind. pose proof (Hb x s ltac:(by apply elem_of_cons; left) Hs) as Hx.
  destruct (body x s) as [[[]|e] s'] eqn:E; [|done].
  apply IH; [|done]. intros y s0 Hy. apply Hb. by apply elem_of_cons; right.
Qed.
End Run.

Create HintDb pyrun discriminated.
Create Rewrite HintDb pyrun.
#[export] Hint Rewrite @run_ret @run_get @run_put @run_modify @run_throw
  @run_py_for_nil : pyrun.

(** [pyrun] unfolds a run as far as the state is known. *)
Ltac pyrun := repeat (autorewrite with pyrun; rewrite ?run_py_for_cons, ?run_bind; simpl).

(** ** Lemmas on [py_in] *)

Lemma py_in_true x xs : py_in x xs = true <-> x ∈ xs.
Proof.
  unfold py_in. rewrite existsb_exists, list_elem_of_In. split.
  - intros (y & Hy & E). apply String.eqb_eq in E. by subst.
  - intros H. exists x. split; [done|]. apply String.eqb_refl.
Qed.

Lemma py_in_false x xs : py_in x xs = false <-> x ∉ xs.
Proof. rewrite <- py_in_true. destruct (py_in x xs); intuition congruence. Qed.

#[export] Hint Resolve <- py_in_true : core.
#[export] Hint Resolve <- py_in_false : core.

(** ** Generic list lemmas *)

Lemma sublist_fmap {A B} (f : A -> B) (l1 l2 : list A) :
  l1 `sublist_of` l2 -> f <$> l1 `sublist_of` f <$> l2.
Proof. induction 1; rewrite ?fmap_cons; by constructor. Qed.

Lemma Forall_sublist {A} (P : A -> Prop) (l1 l2 : list A) :
  l1 `sublist_of` l2 -> Forall P l2 -> Forall P l1.
Proof.
  intros Hs. rewrite !Forall_forall. intros HP x Hx.
  apply HP. by eapply elem_of_sublist.
Qed.

(** The identities of a list, with one element taken out. *)
Lemma NoDup_fmap_middle {A B} (f : A -> B) (pre post : list A) (x : A) :
  NoDup (f <$> pre ++ x :: post) -> NoDup (f <$> pre ++ post).
Proof.
  intros H. eapply sublist_NoDup; [exact H|]. apply sublist_fmap.
  apply sublist_app; [done|]. by apply sublist_cons.
Qed.

#[export] Hint Resolve sublist_fmap Forall_sublist NoDup_fmap_middle : core.

(** Induction that steps over one or two elements, for functions that
    consume two elements at once. *)
Lemma list_ind2 {A} (P : list A -> Prop) :
  P [] -> (forall x, P [x]) ->
  (forall x y l, P l -> P (y :: l) -> P (x :: y :: l)) -> forall l, P l.
Proof.
  intros H0 H1 H2 l. enough (P l /\ forall x, P (x :: l)) by tauto.
  induction l as [|y l [IH1 IH2]]; split; auto.
Qed.

(** Closes a decidable goal on concrete data by evaluation. *)
Ltac by_compute := apply (bool_decide_unpack _); vm_compute; exact I.

(** Two loops whose bodies agree on the elements run alike. *)
Lemma py_for_ext {S X} (xs : list X) (b1 b2 : X -> PyM S unit) s :
  (forall x s, x ∈ xs -> b1 x s = b2 x s) -> py_for xs b1 s = py_for xs b2 s.
Proof.
  revert s. induction xs as [|x xs IH]; intros s Hb; [done|].
  simpl. rewrite !run_bind, Hb by (by apply elem_of_cons; left).
  destruct (b2 x s) as [[[]|e] s']; [|done].
  apply IH. intros y s0 Hy. apply Hb. by apply elem_of_cons; right.
Qed.

(** An invariant of the state carried through a bind, whatever the
    outcome of each part. *)
Lemma preserves_bind {S A B} (P : S -> Prop) (m : PyM S A) (k : A -> PyM S B) s :
  (forall s, P s -> P (m s).2) -> (forall a s, P s -> P (k a s).2) -> P s -> P ((m ≫= k) s).2.
Proof.
  intros Hm Hk Hs. rewrite run_bind. specialize (Hm s Hs).
  destruct (m s) as [[a|e] s']; simpl in *; auto.
Qed.

Lemma preserves_ret {S A} (P : S -> Prop) (a : A) s : P s -> P ((mret a : PyM S A) s).2.
Proof. done. Qed.

(** A loop whose every iteration returns normally returns normally. *)
Lemma py_for_ok {S X} (xs : list X) (body : X -> PyM S unit) s :
  (forall x s, x ∈ xs -> (body x s).1 = Ok ()) -> (py_for xs body s).1 = Ok ().
Proof.
  revert s. induction xs as [|x xs IH]; intros s Hb; [done|].
  simpl. rewrite run_bind. pose proof (Hb x s ltac:(by apply elem_of_cons; left)) as Hx.
  destruct (body x s) as [[[]|e] s']; simpl in Hx; [|done].
  apply IH. intros y s0 Hy. apply Hb. by apply elem_of_cons; right.
Qed.

(** A loop that appends [f x] to a list state for each [x]. *)
Lemma run_py_for_snoc {X Y} (xs : list X) (f : X -> Y) (s : list Y) :
  py_for xs (fun x => modify (fun l => l ++ [f x])) s = (Ok (), s ++ (f <$> xs)).
Proof.
  revert s. induction xs as [|x xs IH]; intros s; [by rewrite app_nil_r|].
  cbn [py_for]. rewrite run_bind, run_modify, IH. simpl. by rewrite <- app_assoc.
Qed.

(** A loop whose body only appends to a list state only appends. *)
Lemma py_for_prefix {X Y} (xs : list X) (body : X -> PyM (list Y) unit) s :
  (forall x s, x ∈ xs -> s `prefix_of` (body x s).2) -> s `prefix_of` (py_for xs body s).2.
Proof.
  intros Hb. apply (py_for_preserves (fun t => s `prefix_of` t)); [|done].
  intros x t Hx Ht. etrans; [exact Ht|by apply Hb].
Qed.

(** What an iteration of such a loop appends stays in the final state,
    when no iteration raises. *)
Lemma py_for_mem {X Y} (xs : list X) (body : X -> PyM (list Y) unit) x y s :
  (forall x s, x ∈ xs -> (body x s).1 = Ok ()) ->
  (forall x s, x ∈ xs -> s `prefix_of` (body x s).2) ->
  x ∈ xs -> (forall s, y ∈ (body x s).2) -> y ∈ (py_for xs body s).2.
Proof.
  revert s. induction xs as [|x' xs IH]; intros s Hok Hpre Hx Hy; [by apply elem_of_nil in Hx|].
  simpl. rewrite run_bind.
  pose proof (Hok x' s ltac:(by apply elem_of_cons; left)) as Hx'.
  destruct (body x' s) as [[[]|e] s'] eqn:E; simpl in Hx'; [|done].
  apply elem_of_cons in Hx as [->|Hx].
  - specialize (Hy s). rewrite E in Hy.
    eapply elem_of_prefix; [exact Hy|]. apply py_for_prefix.
    intros z t Hz. apply Hpre. by apply elem_of_cons; right.
  - apply IH; [| |done|done]; intros z t Hz; [apply Hok|apply Hpre]; by apply elem_of_cons; right.
Qed.

(** A loop whose body appends to a list state what it appends from the
    empty list, and never raises, appends the concatenation. *)
Lemma run_py_for_join {X Y} (xs : list X) (body : X -> PyM (list Y) unit) s :
  (forall x s, x ∈ xs -> body x s = (Ok (), s ++ (body x []).2)) ->
  py_for xs body s = (Ok (), s ++ mjoin ((fun x => (body x []).2) <$> xs)).
Proof.
  revert s. induction xs as [|x xs IH]; intros s Hb; [by rewrite app_nil_r|].
  cbn [py_for]. rewrite run_bind, Hb by (by apply elem_of_cons; left).
  rewrite IH by (intros; apply Hb; by apply elem_of_cons; right).
  by rewrite <- app_assoc.
Qed.

Lemma NoDup_join_fmap {A B} (g : A -> list B) (xs : list A) :
  NoDup xs -> (forall x, x ∈ xs -> NoDup (g x)) ->
  (forall x y z, x ∈ xs -> y ∈ xs -> z ∈ g x -> z ∈ g y -> x = y) ->
  NoDup (mjoin (g <$> xs)).
Proof.
  induction xs as [|x xs IH]; intros Hnd Hg Hdis; [constructor|].
  apply NoDup_cons in Hnd as [Hx Hnd]. simpl. apply NoDup_app. split_and!.
  - apply Hg. by apply elem_of_cons; left.
  - intros z Hz (l & Hzl & Hl)%list_elem_of_join.
    apply list_elem_of_fmap in Hl as (y & -> & Hy).
    assert (x = y) as -> by (apply (Hdis x y z); rewrite ?elem_of_cons; auto). done.
  - apply IH; [done|intros; apply Hg; by apply elem_of_cons; right|].
    intros y1 y2 z H1 H2. apply Hdis; by apply elem_of_cons; right.
Qed.
