(* ===== verification/Logging.v ===== *)
(** * Logging: the function [log] of Watch.py (lines 13-33)

    [log(filename, option)] formats the current date, the path and a
    phrase chosen by the integer [option] (1 added, 2 removed, 3 modified,
    4 found) and hands the message to [logging.info]; any other option
    emits nothing.  The log file is abstracted as a sink of messages: the
    class [LogSink] says how a state records one message, and [log] works
    on any state that has one.  The date is the parameter [now]
    (the result of [datetime.now().strftime(...)]). *)

From stdpp Require Import base list strings.
From Stdlib Require Import ZArith.
From S2P Require Import Prelude.

Local Open Scope Z_scope.

(** The interface of [logging.info]: a state that records messages. *)
Class LogSink (S : Type) := log_emit : string -> S -> S.

Section Logging.
Context {S : Type} `{LogSink S}.

Definition logging_info (msg : string) : PyM S unit := modify (log_emit msg).

(** The message [log] emits for an option, if any. *)
Definition log_message (date filename : string) (opt : Z) : option string :=
  if opt =? 1 then Some (date +:+ " " +:+ filename +:+ " was added.")
  else if opt =? 2 then Some (date +:+ " " +:+ filename +:+ " was removed.")
  else if opt =? 3 then Some (date +:+ " " +:+ filename +:+ " was modified.")
  else if opt =? 4 then Some (date +:+ " " +:+ filename +:+ " was found.")
  else None.

Definition log (now filename : string) (opt : Z) : PyM S unit :=
  match log_message now filename opt with
  | Some msg => logging_info msg
  | None => mret ()
  end.

Lemma run_log now filename opt s :
  log now filename opt s =
    (Ok (), match log_message now filename opt with
            | Some msg => log_emit msg s
            | None => s
            end).
Proof. unfold log. by destruct (log_message now filename opt). Qed.
End Logging.

(** The four options the code uses, as the spec's event kinds. *)
Inductive event_kind := Added | Removed | Modified | Found.

#[export] Instance event_kind_eq_dec : EqDecision event_kind.
Proof. solve_decision. Defined.

Definition option_of_kind (k : event_kind) : Z :=
  match k with Added => 1 | Removed => 2 | Modified => 3 | Found => 4 end.

Definition suffix_of_kind (k : event_kind) : string :=
  match k with
  | Added => " was added."
  | Removed => " was removed."
  | Modified => " was modified."
  | Found => " was found."
  end.

(** The line for one event, as [log] formats it. *)
Definition event_line (now filename : string) (k : event_kind) : string :=
  now +:+ " " +:+ filename +:+ suffix_of_kind k.

Lemma log_message_kind now filename k :
  log_message now filename (option_of_kind k) = Some (event_line now filename k).
Proof. by destruct k. Qed.

Lemma log_message_other now filename opt :
  ~ (1 <= opt <= 4) -> log_message now filename opt = None.
Proof.
  intros Hr. unfold log_message.
  repeat match goal with |- context [?a =? ?b] => destruct (Z.eqb_spec a b); [lia|] end.
  done.
Qed.

#[export] Hint Rewrite @run_log @log_message_kind : pyrun.

(** ** Reading a message back *)

Fixpoint strip_prefix (p s : string) : option string :=
  match p, s with
  | EmptyString, _ => Some s
  | String c p', String d s' => if Ascii.eqb c d then strip_prefix p' s' else None
  | String _ _, EmptyString => None
  end.

Definition is_prefix (p s : string) : bool :=
  match strip_prefix p s with Some _ => true | None => false end.

Fixpoint srev (s : string) : string :=
  match s with
  | EmptyString => EmptyString
  | String c s' => srev s' +:+ String c EmptyString
  end.

(** The kind whose suffix ends [r], read on the reversed message. *)
Fixpoint match_kind (r : string) (ks : list event_kind) : option (string * Z) :=
  match ks with
  | [] => None
  | k :: ks' =>
      match strip_prefix (srev (suffix_of_kind k)) r with
      | Some rf => Some (srev rf, option_of_kind k)
      | None => match_kind r ks'
      end
  end.

(** A log message parsed into its path and option, given the date. *)
Definition parse_log_message (date msg : string) : option (string * Z) :=
  match strip_prefix (date +:+ " ") msg with
  | Some rest => match_kind (srev rest) [Added; Removed; Modified; Found]
  | None => None
  end.

(** [String.append] does not unfold by [simpl]: its two equations. *)
Lemma append_empty_l (a : string) : EmptyString +:+ a = a.
Proof. reflexivity. Qed.

Lemma append_cons (c : Ascii.ascii) (a b : string) : String c a +:+ b = String c (a +:+ b).
Proof. reflexivity. Qed.

Lemma append_assoc_str (a b c : string) : (a +:+ b) +:+ c = a +:+ (b +:+ c).
Proof. induction a as [|x a IH]; [done|]. by rewrite !append_cons, IH. Qed.

Lemma append_nil_str (a : string) : a +:+ EmptyString = a.
Proof. induction a as [|x a IH]; [done|]. by rewrite append_cons, IH. Qed.

Lemma srev_app a b : srev (a +:+ b) = srev b +:+ srev a.
Proof.
  induction a as [|x a IH]; [by rewrite append_empty_l, append_nil_str|].
  rewrite append_cons. simpl. by rewrite IH, append_assoc_str.
Qed.

Lemma srev_involutive s : srev (srev s) = s.
Proof. induction s as [|x s IH]; [done|]. simpl. by rewrite srev_app, IH. Qed.

Lemma strip_prefix_app p s : strip_prefix p (p +:+ s) = Some s.
Proof. induction p as [|c p IH]; [done|]. rewrite append_cons. simpl. by rewrite Ascii.eqb_refl. Qed.

(** Two strings neither of which is a prefix of the other cannot both
    start the same string. *)
Lemma strip_prefix_app_none p q r :
  is_prefix p q = false -> is_prefix q p = false -> strip_prefix p (q +:+ r) = None.
Proof.
  unfold is_prefix. revert q. induction p as [|c p IH]; intros q H1 H2; [done|].
  destruct q as [|d q]; [done|]. rewrite append_cons. cbn [strip_prefix] in *.
  destruct (Ascii.eqb_spec c d) as [->|]; [|done].
  rewrite ?Ascii.eqb_refl in *. by apply IH.
Qed.

#[export] Hint Rewrite srev_app srev_involutive strip_prefix_app : pyrun.

Lemma log_message_Some date filename opt msg :
  log_message date filename opt = Some msg ->
  exists k, opt = option_of_kind k /\ msg = event_line date filename k.
Proof.
  unfold log_message.
  destruct (Z.eqb_spec opt 1); [intros [= <-]; by exists Added|].
  destruct (Z.eqb_spec opt 2); [intros [= <-]; by exists Removed|].
  destruct (Z.eqb_spec opt 3); [intros [= <-]; by exists Modified|].
  destruct (Z.eqb_spec opt 4); [intros [= <-]; by exists Found|]. done.
Qed.

Lemma parse_event_line date filename k :
  parse_log_message date (event_line date filename k) = Some (filename, option_of_kind k).
Proof.
  unfold parse_log_message, event_line.
  rewrite <- append_assoc_str, strip_prefix_app, srev_app.
  destruct k; cbn [match_kind];
    repeat first [rewrite strip_prefix_app | rewrite strip_prefix_app_none by reflexivity];
    simpl; by rewrite srev_involutive.
Qed.

(** C13: A message that [log] emits reads back, given the date, into the
    path and the option it was made of, whatever characters the path
    holds: the four phrases end the line, and none is a suffix of
    another, so the log lines are unambiguous. *)
Theorem log_message_roundtrip date filename opt msg :
  log_message date filename opt = Some msg ->
  parse_log_message date msg = Some (filename, opt).
Proof. intros (k & -> & ->)%log_message_Some. apply parse_event_line. Qed.

Lemma log_message_roundtrip_witness :
  log_message "2024-01-01 00:00:00" "/a/b was added." 2 =
    Some "2024-01-01 00:00:00 /a/b was added. was removed." /\
  parse_log_message "2024-01-01 00:00:00" "2024-01-01 00:00:00 /a/b was added. was removed." =
    Some ("/a/b was added.", 2%Z).
Proof.
  assert (H : log_message "2024-01-01 00:00:00" "/a/b was added." 2 =
              Some "2024-01-01 00:00:00 /a/b was added. was removed.") by reflexivity.
  split; [exact H|]. exact (log_message_roundtrip _ _ _ _ H).
Defined.
