(* ===== verification/File.v ===== *)
(** * The class [File] of Watch.py (lines 113-144) and [os.stat]

    A [File] object holds an absolute path and the [os.stat] result of
    that path.  The code never defines [__eq__] on [File], so two [File]
    objects are equal only when they are the same object: a [File] here
    carries its Python identity [file_id] besides the two attributes.

    [os.stat] is the one operating-system call the class makes.  It is
    the interface [OsStat]: a file system answers a path with its stat
    result, or with nothing, in which case [os.stat] raises
    [FileNotFoundError].  [stat_map] is the simplest file system that
    implements it: a finite map from paths to stat results. *)

From stdpp Require Import base list gmap strings.
From Stdlib Require Import ZArith.
From S2P Require Import Prelude.

(** [os.stat_result]; [==] on it compares these ten integer fields
    (with the integer times), as a tuple. *)
Record stat_result := mk_stat {
  st_mode : Z; st_ino : Z; st_dev : Z; st_nlink : Z; st_uid : Z;
  st_gid : Z; st_size : Z; st_atime : Z; st_mtime : Z; st_ctime : Z
}.

#[export] Instance stat_result_eq_dec : EqDecision stat_result.
Proof. solve_decision. Defined.

(** The operating-system interface: [os.stat(path)]. *)
Class OsStat (FS : Type) := os_stat_of : FS -> string -> option stat_result.

(** A file system as a finite map from absolute paths to stat results. *)
Abbreviation stat_map := (gmap string stat_result).

#[export] Instance stat_map_os : OsStat stat_map := fun fs p => fs !! p.

Record File := mkFile {
  file_id : nat;               (** the object's identity, [id(f)] *)
  path : string;
  attributes : stat_result
}.

#[export] Instance File_eq_dec : EqDecision File.
Proof. solve_decision. Defined.

(** Identity comparison, the [==] of objects without [__eq__]. *)
Definition py_is (a b : File) : bool := Nat.eqb (file_id a) (file_id b).

Section FileOps.
Context {FS : Type} `{OsStat FS} (fs : FS) {S : Type}.

Definition os_stat (p : string) : PyM S stat_result :=
  match os_stat_of fs p with
  | Some st => mret st
  | None => mthrow (FileNotFoundError p)
  end.

Definition same_name (self : File) (file : string) : bool :=
  String.eqb (path self) file.

Definition same_attributes (self : File) (file : string) : PyM S bool :=
  st ← os_stat file;
  mret (bool_decide (st = attributes self)).

Lemma run_os_stat p s :
  os_stat p s = match os_stat_of fs p with
                | Some st => (Ok st, s)
                | None => (Raise (FileNotFoundError p), s)
                end.
Proof. unfold os_stat. by destruct (os_stat_of fs p). Qed.

Lemma run_same_attributes self file s :
  same_attributes self file s =
    match os_stat_of fs file with
    | Some st => (Ok (bool_decide (st = attributes self)), s)
    | None => (Raise (FileNotFoundError file), s)
    end.
Proof. unfold same_attributes. rewrite run_bind, run_os_stat. by destruct (os_stat_of fs file). Qed.
End FileOps.

Lemma same_name_true f file : same_name f file = true <-> path f = file.
Proof. apply String.eqb_eq. Qed.

#[export] Hint Rewrite @run_os_stat @run_same_attributes : pyrun.
