(* ===== verification/FileList.v ===== *)
(** * The class [FileList] of Watch.py (lines 36-110)

    [FileList.list] is a class attribute: [self.list.append] and
    [self.list.remove] act on the one list object shared by every
    instance, while [debug] and [log_file] are instance attributes set by
    [__init__].  The state [World] therefore holds the class-level list
    (of [File] objects, with their identities), the counter that gives a
    new [File] object its identity, and the log sink; an instance is the
    record [FileList] of its own attributes.

    The methods are in [Module FileList], under a section that fixes the
    file system [fs] seen by [os.stat] and the date [now] of the log
    messages:
    - [length], [add] (lines 51-65), [add_list] (67-79);
    - [compare] (81-110), split as the code is into the search loop
      [match_loop] (lines 93-99), the per-path body [compare_file]
      (93-106) and the removal loop [removal_loop] (107-110), which
      iterates over [self.list] while it removes from it: Python's list
      iterator keeps an index into the current list, so the model keeps
      one too.

    The invariant [ids_ok] (distinct identities, all below the counter)
    and the uniqueness of paths [paths_unique] are stated here with the
    run lemmas of each method; [Compare.v] proves the properties. *)

From stdpp Require Import base list gmap strings.
From Stdlib Require Import ZArith.
From S2P Require Import Prelude Logging File.

Record World := mkWorld {
  fl_list : list File;     (** [FileList.list], the class attribute *)
  next_id : nat;           (** the identity of the next [File] object *)
  records : list string    (** the messages handed to [logging.info] *)
}.

#[export] Instance World_sink : LogSink World :=
  fun msg w => mkWorld (fl_list w) (next_id w) (records w ++ [msg]).

Definition set_fl_list (l : list File) (w : World) : World :=
  mkWorld l (next_id w) (records w).

(** An instance: its instance attributes only. *)
Record FileList := mkFileList { debug : bool; log_file : string }.

(** The Python values compared by [self.length == 0] (line 89): without
    parentheses, [self.length] is a bound method, never equal to an int. *)
Inductive pyval := PyInt (z : Z) | PyBoundMethod (owner name : string).

Definition py_eq (a b : pyval) : bool :=
  match a, b with
  | PyInt x, PyInt y => Z.eqb x y
  | PyBoundMethod o1 n1, PyBoundMethod o2 n2 => String.eqb o1 o2 && String.eqb n1 n2
  | _, _ => false
  end.

(** [list.remove(x)]: remove the first element [== x] (here: the same
    object), or [None] when [ValueError] is raised. *)
Fixpoint py_list_remove (x : File) (l : list File) : option (list File) :=
  match l with
  | [] => None
  | y :: l' => if py_is y x then Some l' else (y ::.) <$> py_list_remove x l'
  end.

(** The loop of lines 96-99: the last element whose path is [file]. *)
Definition match_loop (file : string) (l : list File) : bool * option File :=
  foldl (fun '(contains, corresponding_file) f =>
           if same_name f file then (true, Some f) else (contains, corresponding_file))
        (false, None) l.

Module FileList.
Section Methods.
Context {FS : Type} `{OsStat FS} (fs : FS) (now : string).

Definition init (debug : bool) (log_file : string) : PyM World FileList :=
  mret (mkFileList debug log_file).

Definition length (self : FileList) : PyM World Z :=
  w ← get; mret (Z.of_nat (Datatypes.length (fl_list w))).

(** [File(path, attributes)]: a new object with a fresh identity. *)
Definition new_File (p : string) (st : stat_result) : PyM World File :=
  fun w => (Ok (mkFile (next_id w) p st), mkWorld (fl_list w) (S (next_id w)) (records w)).

Definition add (self : FileList) (file : string) : PyM World unit :=
  st ← os_stat (S:=World) fs file;
  new_file ← new_File file st;
  modify (fun w => set_fl_list (fl_list w ++ [new_file]) w).

Definition add_list (self : FileList) (filelist : list string) (first : bool) : PyM World unit :=
  py_for filelist (fun f => add self f ;; if first then log now f 4 else log now f 1).

(** [corresponding_file.attributes = st]: the object is mutated in place,
    so every reference to it in the list sees the new attributes. *)
Definition set_attributes (cf : File) (st : stat_result) : PyM World unit :=
  modify (fun w => set_fl_list
    ((fun g => if py_is g cf then mkFile (file_id g) (path g) st else g) <$> fl_list w) w).

(** The body of the loop of lines 93-106, for one path. *)
Definition compare_file (self : FileList) (file : string) : PyM World unit :=
  w ← get (S:=World);
  let '(contains, corresponding_file) := match_loop file (fl_list w) in
  if contains then
    match corresponding_file with
    | None => mthrow (UnboundLocalError "corresponding_file")
    | Some cf =>
        same ← same_attributes (S:=World) fs cf file;
        if (same : bool) then mret ()
        else (log now file 3 ;; st ← os_stat (S:=World) fs file; set_attributes cf st)
    end
  else (log now file 1 ;; add self file).

Definition list_remove (x : File) : PyM World unit :=
  w ← get (S:=World);
  match py_list_remove x (fl_list w) with
  | Some l => put (set_fl_list l w)
  | None => mthrow (ValueError "list.remove(x): x not in list")
  end.

(** Lines 107-110: [for f in self.list] with [self.list.remove(f)] in
    the body.  The iterator reads the element at index [i] of the
    current list and stops when [i] is past its end. *)
Fixpoint removal_loop (fuel : nat) (filelist : list string) (i : nat) : PyM World unit :=
  match fuel with
  | O => mret ()
  | S fuel' =>
      w ← get (S:=World);
      match fl_list w !! i with
      | None => mret ()
      | Some f =>
          (if negb (py_in (path f) filelist)
           then log now (path f) 2 ;; list_remove f
           else mret ()) ;;
          removal_loop fuel' filelist (S i)
      end
  end.

Definition compare (self : FileList) (filelist : list string) : PyM World unit :=
  if py_eq (PyBoundMethod "FileList" "length") (PyInt 0)
  then add_list self filelist false
  else
    py_for filelist (compare_file self) ;;
    w ← get (S:=World);
    removal_loop (S (Datatypes.length (fl_list w))) filelist 0.
End Methods.
End FileList.
