(* ===== verification/Compare.v ===== *)
(** * Properties of [FileList.compare] (Watch.py lines 81-110)

    The abstraction of the class-level list is the map [snapshot] from a
    path to its stored stat result: the spec's "mapping" (Snapshot).  The
    first pass of [compare] (lines 93-106) refines the abstract update
    [pass1], which sets each scanned path to its current stat result and
    reports [Added] or [Modified]; the second pass (lines 107-110) is the
    structural [sweep], which removes a stale entry and skips the entry
    that follows it.  The invariant [wf] (distinct identities below the
    counter, distinct paths) is preserved by every method, also when it
    raises.  The last part of the file is about [add_list]: the first
    crawl, the dead branch of [compare] and the shared class attribute. *)

From stdpp Require Import base list gmap strings.
From Stdlib Require Import ZArith.
From S2P Require Import Prelude Logging File FileList.

(** ** Invariant and abstraction *)

Definition ids_ok (w : World) : Prop :=
  NoDup (file_id <$> fl_list w) /\ Forall (fun i => i < next_id w) (file_id <$> fl_list w).

Definition paths_unique (w : World) : Prop := NoDup (path <$> fl_list w).

Definition wf (w : World) : Prop := ids_ok w /\ paths_unique w.

Definition entry (f : File) : string * stat_result := (path f, attributes f).

Definition snapshot (l : list File) : gmap string stat_result := list_to_map (entry <$> l).

(** The in-place update of [set_attributes]. *)
Definition upd_attrs (cf : File) (st : stat_result) (g : File) : File :=
  if py_is g cf then mkFile (file_id g) (path g) st else g.

Lemma py_is_true g cf : py_is g cf = true <-> file_id g = file_id cf.
Proof. apply Nat.eqb_eq. Qed.

Lemma entry_fst (l : list File) : (entry <$> l).*1 = path <$> l.
Proof. rewrite <- list_fmap_compose. done. Qed.

Lemma snapshot_cons f l : snapshot (f :: l) = <[path f := attributes f]> (snapshot l).
Proof. done. Qed.

Lemma snapshot_None l p : snapshot l !! p = None <-> p ∉ path <$> l.
Proof. unfold snapshot. rewrite <- not_elem_of_list_to_map, entry_fst. done. Qed.

Lemma snapshot_snoc l f :
  path f ∉ path <$> l -> snapshot (l ++ [f]) = <[path f := attributes f]> (snapshot l).
Proof. intros H. unfold snapshot. rewrite fmap_app. apply list_to_map_snoc. by rewrite entry_fst. Qed.

Lemma snapshot_Some l p st :
  NoDup (path <$> l) ->
  snapshot l !! p = Some st <-> exists f, f ∈ l /\ path f = p /\ attributes f = st.
Proof.
  intros Hnd. unfold snapshot. rewrite <- elem_of_list_to_map by (by rewrite entry_fst).
  rewrite list_elem_of_fmap. split.
  - intros (f & Hf & Hin). injection Hf as -> ->. eauto.
  - intros (f & Hin & <- & <-). eauto.
Qed.

Lemma fmap_path_upd cf st (l : list File) : path <$> (upd_attrs cf st <$> l) = path <$> l.
Proof.
  rewrite <- list_fmap_compose. apply list_fmap_ext. intros i g _.
  unfold upd_attrs, compose. by destruct (py_is g cf).
Qed.

Lemma fmap_id_upd cf st (l : list File) : file_id <$> (upd_attrs cf st <$> l) = file_id <$> l.
Proof.
  rewrite <- list_fmap_compose. apply list_fmap_ext. intros i g _.
  unfold upd_attrs, compose. by destruct (py_is g cf).
Qed.

Lemma upd_attrs_absent cf st (l : list File) :
  file_id cf ∉ file_id <$> l -> upd_attrs cf st <$> l = l.
Proof.
  induction l as [|g l IH]; intros Hn; [done|]. rewrite fmap_cons in Hn.
  apply not_elem_of_cons in Hn as [Hg Hn]. rewrite fmap_cons, IH by done.
  unfold upd_attrs. destruct (py_is g cf) eqn:E; [|done].
  apply py_is_true in E. congruence.
Qed.

Lemma snapshot_upd cf st (l : list File) :
  NoDup (file_id <$> l) -> NoDup (path <$> l) -> cf ∈ l ->
  snapshot (upd_attrs cf st <$> l) = <[path cf := st]> (snapshot l).
Proof.
  induction l as [|g l IH]; intros Hid Hp Hin; [by apply elem_of_nil in Hin|].
  rewrite fmap_cons in Hid. rewrite fmap_cons in Hp. apply NoDup_cons in Hid as [Hid1 Hid], Hp as [Hp1 Hp].
  rewrite fmap_cons, !snapshot_cons.
  apply elem_of_cons in Hin as [->|Hin].
  - rewrite upd_attrs_absent, insert_insert_eq by done.
    unfold upd_attrs. by rewrite (proj2 (py_is_true g g) eq_refl).
  - assert (upd_attrs cf st g = g) as ->.
    { unfold upd_attrs. destruct (py_is g cf) eqn:E; [|done].
      apply py_is_true in E. destruct Hid1. rewrite E. by apply list_elem_of_fmap_2. }
    rewrite IH by done. apply insert_insert_ne.
    intros E'. apply Hp1. rewrite E'. by apply list_elem_of_fmap_2.
Qed.

(** ** The search loop of lines 96-99 *)

Lemma match_loop_snoc file l f :
  match_loop file (l ++ [f]) =
    if same_name f file then (true, Some f) else match_loop file l.
Proof. unfold match_loop. rewrite foldl_app. simpl. by destruct (foldl _ _ l). Qed.

Lemma match_loop_absent file l : file ∉ path <$> l -> match_loop file l = (false, None).
Proof.
  induction l as [|f l IH] using rev_ind; intros Hn; [done|].
  rewrite fmap_app in Hn. apply not_elem_of_app in Hn as [Hn Hf].
  rewrite match_loop_snoc, IH by done.
  destruct (same_name f file) eqn:E; [|done].
  apply same_name_true in E. destruct Hf. rewrite <- E.
  apply list_elem_of_fmap_2. by apply list_elem_of_singleton.
Qed.

Lemma match_loop_found file l cf :
  NoDup (path <$> l) -> cf ∈ l -> path cf = file -> match_loop file l = (true, Some cf).
Proof.
  induction l as [|f l IH] using rev_ind; intros Hnd Hin Hp; [by apply elem_of_nil in Hin|].
  rewrite fmap_app in Hnd. apply NoDup_app in Hnd as (Hnd & Hdis & _).
  rewrite match_loop_snoc. apply elem_of_app in Hin as [Hin|Hin].
  - destruct (same_name f file) eqn:E; [|by apply IH].
    apply same_name_true in E. destruct (Hdis file).
    + rewrite <- Hp. by apply list_elem_of_fmap_2.
    + rewrite <- E. apply list_elem_of_fmap_2. by apply list_elem_of_singleton.
  - apply list_elem_of_singleton in Hin. subst cf.
    assert (same_name f file = true) as -> by by apply same_name_true. done.
Qed.

(** ** Preservation of the invariant by the three updates *)

Lemma wf_records w r : wf w -> wf (mkWorld (fl_list w) (next_id w) r).
Proof. done. Qed.

Lemma ids_ok_snoc w file st r :
  ids_ok w -> ids_ok (mkWorld (fl_list w ++ [mkFile (next_id w) file st]) (S (next_id w)) r).
Proof.
  intros [Hid Hlt]. unfold ids_ok; simpl. rewrite !fmap_app. split.
  - apply NoDup_app. split; [done|]. split; [|apply NoDup_singleton].
    intros i Hi ->%list_elem_of_singleton. rewrite Forall_forall in Hlt.
    specialize (Hlt _ Hi). simpl in Hlt. lia.
  - apply Forall_app. split; [|by apply Forall_singleton; simpl; lia].
    eapply Forall_impl; [exact Hlt|]. simpl. lia.
Qed.

Lemma wf_snoc_new w file st r :
  wf w -> file ∉ path <$> fl_list w ->
  wf (mkWorld (fl_list w ++ [mkFile (next_id w) file st]) (S (next_id w)) r).
Proof.
  intros [Hids Hp] Hn. split; [by apply ids_ok_snoc|]. unfold paths_unique; simpl.
  rewrite fmap_app. apply NoDup_app. split; [done|]. split; [|apply NoDup_singleton].
  intros i Hi ->%list_elem_of_singleton. by apply Hn.
Qed.

Lemma wf_upd w cf st r : wf w -> wf (mkWorld (upd_attrs cf st <$> fl_list w) (next_id w) r).
Proof. intros [[Hid Hlt] Hp]. unfold wf, ids_ok, paths_unique; simpl. by rewrite fmap_id_upd, fmap_path_upd. Qed.

(** ** Run lemmas of the methods *)

Lemma run_log_world now file opt w :
  log now file opt w =
    (Ok (), match log_message now file opt with
            | Some msg => mkWorld (fl_list w) (next_id w) (records w ++ [msg])
            | None => w
            end).
Proof. rewrite run_log. done. Qed.

Section Runs.
Context {FS : Type} `{OsStat FS} (fs : FS) (now : string) (self : FileList).

Lemma run_add file w :
  FileList.add fs self file w =
    match os_stat_of fs file with
    | Some st => (Ok (), mkWorld (fl_list w ++ [mkFile (next_id w) file st]) (S (next_id w)) (records w))
    | None => (Raise (FileNotFoundError file), w)
    end.
Proof. unfold FileList.add. rewrite run_bind, run_os_stat. by destruct (os_stat_of fs file). Qed.

(** [compare_file] on a path that is not tracked: [log(file, 1)], then
    [add], which raises when [os.stat] fails, after the message. *)
Lemma run_compare_file_new file w :
  file ∉ path <$> fl_list w ->
  FileList.compare_file fs now self file w =
    match os_stat_of fs file with
    | Some st => (Ok (), mkWorld (fl_list w ++ [mkFile (next_id w) file st]) (S (next_id w))
                                 (records w ++ [event_line now file Added]))
    | None => (Raise (FileNotFoundError file),
               mkWorld (fl_list w) (next_id w) (records w ++ [event_line now file Added]))
    end.
Proof.
  intros Hn. unfold FileList.compare_file. rewrite run_bind, run_get, match_loop_absent by done.
  rewrite run_bind, run_log_world, (log_message_kind now file Added : log_message now file 1 = _).
  rewrite run_add. simpl. by destruct (os_stat_of fs file).
Qed.

(** [compare_file] on a tracked path: [same_attributes], then, when
    they differ, [log(file, 3)] and the in-place update. *)
Lemma run_compare_file_tracked file w cf :
  paths_unique w -> cf ∈ fl_list w -> path cf = file ->
  FileList.compare_file fs now self file w =
    match os_stat_of fs file with
    | Some st =>
        if decide (st = attributes cf) then (Ok (), w)
        else (Ok (), mkWorld (upd_attrs cf st <$> fl_list w) (next_id w)
                             (records w ++ [event_line now file Modified]))
    | None => (Raise (FileNotFoundError file), w)
    end.
Proof.
  intros Hu Hin Hp. unfold FileList.compare_file.
  rewrite run_bind, run_get, (match_loop_found file _ cf) by done.
  rewrite run_bind, run_same_attributes. destruct (os_stat_of fs file) as [st|] eqn:Est; [|done].
  rewrite bool_decide_decide. destruct (decide (st = attributes cf)); [done|].
  rewrite run_bind, run_log_world, (log_message_kind now file Modified : log_message now file 3 = _).
  rewrite run_bind, run_os_stat, Est. done.
Qed.
End Runs.

(** ** Pass 1 refines the abstract update of the snapshot *)

(** The event the spec asks for when [file] is observed with [st]. *)
Definition pass1_event (m : gmap string stat_result) (file : string) (st : stat_result)
    : list event_kind :=
  match m !! file with
  | None => [Added]
  | Some st' => if decide (st = st') then [] else [Modified]
  end.

Section Pass1.
Context {FS : Type} `{OsStat FS} (fs : FS) (now : string) (self : FileList).

Lemma compare_file_refines file st w :
  wf w -> os_stat_of fs file = Some st ->
  exists w', FileList.compare_file fs now self file w = (Ok (), w') /\ wf w' /\
    snapshot (fl_list w') = <[file := st]> (snapshot (fl_list w)) /\
    records w' = records w ++ (event_line now file <$> pass1_event (snapshot (fl_list w)) file st) /\
    path <$> fl_list w' =
      (path <$> fl_list w) ++ (if decide (file ∈ path <$> fl_list w) then [] else [file]).
Proof.
  intros Hwf Hst. unfold pass1_event.
  destruct (decide (file ∈ path <$> fl_list w)) as [Hin|Hn].
  - apply list_elem_of_fmap in Hin as (cf & -> & Hcf).
    assert (snapshot (fl_list w) !! path cf = Some (attributes cf)) as Hl
      by (apply snapshot_Some; [apply Hwf|eauto]).
    rewrite (run_compare_file_tracked fs now self _ _ cf), Hst, Hl by (done || apply Hwf).
    destruct (decide (st = attributes cf)) as [->|Hne].
    + eexists. split; [done|]. rewrite insert_id, !app_nil_r by done. done.
    + eexists. split; [done|]. split; [by apply wf_upd|]. simpl.
      rewrite fmap_path_upd, snapshot_upd, app_nil_r by (done || apply Hwf). done.
  - rewrite run_compare_file_new, Hst by done.
    rewrite (proj2 (snapshot_None _ _) Hn).
    eexists. split; [done|]. split; [by apply wf_snoc_new|]. simpl.
    rewrite snapshot_snoc, fmap_app by done. done.
Qed.
End Pass1.

(** ** The abstract first pass and the removal pass *)

(** The spec's first pass: each scanned path gets its current stat result,
    with the event [pass1_event]; a path that cannot be stat'ed is skipped
    (spec 4.2).  Returns the new snapshot and the log lines. *)
Fixpoint pass1 {F : Type} `{OsStat F} (fs : F) (now : string) (m : gmap string stat_result)
    (B : list string) : gmap string stat_result * list string :=
  match B with
  | [] => (m, [])
  | p :: B' =>
      match os_stat_of fs p with
      | Some st =>
          let r := pass1 fs now (<[p := st]> m) B' in
          (r.1, (event_line now p <$> pass1_event m p st) ++ r.2)
      | None => pass1 fs now m B'
      end
  end.

(** The paths of a list that the scan [B] no longer contains. *)
Definition stale_paths (B : list string) (l : list File) : list string :=
  filter (fun p => p ∉ B) (path <$> l).

(** Reference for the removal loop: an element that is kept is followed by
    the rest of the sweep; an element that is removed takes its successor's
    place, and the successor is never examined. *)
Fixpoint sweep (keep : File -> bool) (l : list File) : list File * list File :=
  match l with
  | [] => ([], [])
  | x :: l' =>
      if keep x then (x :: (sweep keep l').1, (sweep keep l').2)
      else match l' with
           | [] => ([], [x])
           | y :: l'' => (y :: (sweep keep l'').1, x :: (sweep keep l'').2)
           end
  end.


Section Pass1Loop.
Context {FS : Type} `{OsStat FS} (fs : FS) (now : string) (self : FileList).

Definition statable (B : list string) : Prop := Forall (fun p => is_Some (os_stat_of fs p)) B.

Lemma statable_elem B p : statable B -> p ∈ B -> is_Some (os_stat_of fs p).
Proof. unfold statable. rewrite Forall_forall. auto. Qed.

(** Appending scanned paths leaves the stale paths unchanged. *)
Lemma filter_stale_app (B ps extra : list string) :
  (forall p, p ∈ extra -> p ∈ B) ->
  filter (fun p => p ∉ B) (ps ++ extra) = filter (fun p => p ∉ B) ps.
Proof.
  intros Hx. rewrite filter_app.
  assert (filter (fun p => p ∉ B) extra = []) as ->; [|by rewrite app_nil_r].
  induction extra as [|q extra IHe]; [done|]. rewrite filter_cons, decide_False.
  - apply IHe. intros p Hp. apply Hx. by apply elem_of_cons; right.
  - intros Hn. by apply Hn, Hx, elem_of_cons; left.
Qed.

Lemma pass1_loop_refines (B : list string) w :
  wf w -> statable B ->
  exists w1, py_for B (FileList.compare_file fs now self) w = (Ok (), w1) /\ wf w1 /\
    snapshot (fl_list w1) = (pass1 fs now (snapshot (fl_list w)) B).1 /\
    records w1 = records w ++ (pass1 fs now (snapshot (fl_list w)) B).2 /\
    (forall B0, (forall p, p ∈ B -> p ∈ B0) ->
                stale_paths B0 (fl_list w1) = stale_paths B0 (fl_list w)).
Proof.
  revert w. induction B as [|p B IH]; intros w Hwf HB.
  - exists w. simpl. by rewrite app_nil_r.
  - apply Forall_cons in HB as [[st Hst] HB].
    destruct (compare_file_refines fs now self p st w Hwf Hst)
      as (w' & Hrun & Hwf' & Hsnap & Hrec & Hpaths).
    destruct (IH w' Hwf' HB) as (w1 & Hrun1 & Hwf1 & Hsnap1 & Hrec1 & Hstale1).
    exists w1. rewrite run_py_for_cons, (run_bind_ok _ _ _ _ _ Hrun). simpl. rewrite Hst.
    split; [done|]. split; [done|]. rewrite Hsnap1, Hrec1, Hsnap, Hrec, <- app_assoc.
    split; [done|]. split; [done|]. intros B0 HB0.
    rewrite Hstale1 by (intros q Hq; apply HB0; by apply elem_of_cons; right).
    unfold stale_paths. rewrite Hpaths. apply filter_stale_app.
    intros q Hq. case_decide; [by apply elem_of_nil in Hq|].
    apply list_elem_of_singleton in Hq as ->. apply HB0. by apply elem_of_cons; left.
Qed.

(** Every scanned path ends with its current stat result; the others
    keep theirs. *)
Lemma pass1_lookup m (B : list string) p :
  statable B ->
  (pass1 fs now m B).1 !! p = if decide (p ∈ B) then os_stat_of fs p else m !! p.
Proof.
  revert m. induction B as [|q B IH]; intros m HB; cbn [pass1].
  - rewrite decide_False; [done|]. by intros ?%elem_of_nil.
  - apply Forall_cons in HB as [[st Hst] HB]. rewrite Hst. cbn [fst]. rewrite IH by done.
    destruct (decide (p ∈ B)); destruct (decide (p ∈ q :: B)) as [Hin|Hn];
      [done|by destruct Hn; apply elem_of_cons; right| |].
    + apply elem_of_cons in Hin as [->|]; [|done]. by rewrite lookup_insert_eq.
    + rewrite lookup_insert_ne; [done|]. intros ->. by apply Hn, elem_of_cons; left.
Qed.
End Pass1Loop.

(** ** The removal pass *)

Section Sweep.
Context (keep : File -> bool).

Lemma sweep_cons_keep x l :
  keep x = true -> sweep keep (x :: l) = (x :: (sweep keep l).1, (sweep keep l).2).
Proof. intros Hk. simpl. by rewrite Hk. Qed.

Lemma sweep_cons_drop x y l :
  keep x = false -> sweep keep (x :: y :: l) = (y :: (sweep keep l).1, x :: (sweep keep l).2).
Proof. intros Hk. simpl. by rewrite Hk. Qed.

Lemma sweep_single_drop x : keep x = false -> sweep keep [x] = ([], [x]).
Proof. intros Hk. simpl. by rewrite Hk. Qed.

Lemma sweep_partition l : (sweep keep l).1 ++ (sweep keep l).2 ≡ₚ l.
Proof.
  induction l as [|x|x y l IH1 IH2] using list_ind2; [done|..].
  - destruct (keep x) eqn:Hk; [by rewrite sweep_cons_keep|by rewrite sweep_single_drop].
  - destruct (keep x) eqn:Hk.
    + rewrite sweep_cons_keep by done. simpl. by rewrite IH2.
    + rewrite sweep_cons_drop by done. simpl. rewrite <- Permutation_middle, IH1.
      apply perm_swap.
Qed.

Lemma sweep_sublist l : (sweep keep l).1 `sublist_of` l.
Proof.
  induction l as [|x|x y l IH1 IH2] using list_ind2; [done|..].
  - destruct (keep x) eqn:Hk; [rewrite sweep_cons_keep by done|rewrite sweep_single_drop by done];
      repeat constructor.
  - destruct (keep x) eqn:Hk.
    + rewrite sweep_cons_keep by done. by constructor.
    + rewrite sweep_cons_drop by done. simpl. by do 2 constructor.
Qed.

Lemma sweep_removed_stale l : Forall (fun x => keep x = false) (sweep keep l).2.
Proof.
  induction l as [|x|x y l IH1 IH2] using list_ind2; [done|..].
  - destruct (keep x) eqn:Hk; [rewrite sweep_cons_keep by done|rewrite sweep_single_drop by done];
      by repeat constructor.
  - destruct (keep x) eqn:Hk.
    + by rewrite sweep_cons_keep.
    + rewrite sweep_cons_drop by done. by constructor.
Qed.

Lemma sweep_kept l x : x ∈ l -> keep x = true -> x ∈ (sweep keep l).1.
Proof.
  intros Hin Hk. pose proof (sweep_partition l) as Hp.
  rewrite <- Hp in Hin. apply elem_of_app in Hin as [|Hr]; [done|].
  pose proof (sweep_removed_stale l) as Hs. rewrite Forall_forall in Hs.
  apply Hs in Hr. congruence.
Qed.

(** A list with a stale element loses at least one. *)
Lemma sweep_removes_some l : (exists x, x ∈ l /\ keep x = false) -> (sweep keep l).2 <> [].
Proof.
  induction l as [|x|x y l IH1 IH2] using list_ind2; intros (z & Hz & Hk).
  - by apply elem_of_nil in Hz.
  - apply list_elem_of_singleton in Hz as ->. by rewrite sweep_single_drop.
  - destruct (keep x) eqn:Hkx; [|by rewrite sweep_cons_drop].
    rewrite sweep_cons_keep by done. simpl. apply IH2. exists z. split; [|done].
    apply elem_of_cons in Hz as [->|]; [congruence|done].
Qed.

Lemma sweep_progress l :
  (exists x, x ∈ l /\ keep x = false) ->
  length (filter (fun x => keep x = false) (sweep keep l).1) <
  length (filter (fun x => keep x = false) l).
Proof.
  intros Hex. rewrite <- (sweep_partition l) at 2. rewrite filter_app, length_app.
  pose proof (sweep_removes_some l Hex) as Hne. pose proof (sweep_removed_stale l) as Hs.
  destruct (sweep keep l).2 as [|r rs]; [done|]. simpl.
  rewrite filter_cons, decide_True by (by apply Forall_cons in Hs as []). simpl. lia.
Qed.
End Sweep.

Lemma py_list_remove_middle x pre l :
  file_id x ∉ file_id <$> pre -> py_list_remove x (pre ++ x :: l) = Some (pre ++ l).
Proof.
  induction pre as [|y pre IH]; intros Hn; simpl.
  - by rewrite (proj2 (py_is_true x x) eq_refl).
  - rewrite fmap_cons in Hn. apply not_elem_of_cons in Hn as [Hy Hn].
    destruct (py_is y x) eqn:E; [apply py_is_true in E; congruence|]. by rewrite IH.
Qed.

Section Removal.
Context {FS : Type} `{OsStat FS} (fs : FS) (now : string).

(** The test of line 108, as a predicate on entries. *)
Definition keep_in (B : list string) (f : File) : bool := py_in (path f) B.

Definition removed_line (f : File) : string := event_line now (path f) Removed.

Lemma run_list_remove_middle pre x l w :
  fl_list w = pre ++ x :: l -> NoDup (file_id <$> fl_list w) ->
  FileList.list_remove x w = (Ok (), set_fl_list (pre ++ l) w).
Proof.
  intros Hw Hnd. unfold FileList.list_remove. rewrite run_bind, run_get, Hw.
  rewrite Hw, fmap_app, fmap_cons in Hnd. apply NoDup_app in Hnd as (_ & Hd & _).
  rewrite py_list_remove_middle; [done|]. intros Hin.
  by apply (Hd _ Hin), elem_of_cons; left.
Qed.

(** The removal loop, run from index [length pre] with enough fuel, is
    the sweep of the entries from that index on. *)
Lemma removal_loop_sweep_from fuel (B : list string) pre l w :
  fl_list w = pre ++ l -> NoDup (file_id <$> fl_list w) -> length l < fuel ->
  FileList.removal_loop now fuel B (length pre) w =
    (Ok (), mkWorld (pre ++ (sweep (keep_in B) l).1) (next_id w)
                    (records w ++ (removed_line <$> (sweep (keep_in B) l).2))).
Proof.
  revert pre l w. induction fuel as [|fuel IH]; intros pre l w Hw Hnd Hlt; [lia|].
  cbn [FileList.removal_loop]. rewrite run_bind, run_get.
  destruct l as [|x l].
  - rewrite Hw, lookup_ge_None_2 by (rewrite length_app; simpl; lia).
    destruct w as [fl n r]; simpl in *. subst. by rewrite !app_nil_r.
  - rewrite Hw, list_lookup_middle by done. rewrite run_bind.
    destruct (keep_in B x) eqn:Hk; unfold keep_in in Hk; rewrite Hk; cbn [negb].
    + rewrite run_ret, sweep_cons_keep by done.
      replace (S (length pre)) with (length (pre ++ [x])) by (rewrite length_app; simpl; lia).
      rewrite (IH (pre ++ [x]) l); [|by rewrite Hw, <- app_assoc|done|simpl in Hlt; lia].
      by rewrite <- app_assoc.
    + rewrite run_bind, run_log_world.
      rewrite (log_message_kind now (path x) Removed : log_message now (path x) 2 = _).
      rewrite (run_list_remove_middle pre x l); [|exact Hw|exact Hnd].
      destruct l as [|y l].
      * rewrite sweep_single_drop by done. destruct fuel; cbn [FileList.removal_loop]; [done|].
        rewrite run_bind, run_get. simpl. rewrite lookup_ge_None_2 by (rewrite length_app; simpl; lia).
        done.
      * rewrite sweep_cons_drop by done.
        replace (S (length pre)) with (length (pre ++ [y])) by (rewrite length_app; simpl; lia).
        rewrite (IH (pre ++ [y]) l); simpl.
        -- rewrite <- !app_assoc. done.
        -- by rewrite <- app_assoc.
        -- apply (NoDup_fmap_middle file_id pre (y :: l) x). by rewrite <- Hw.
        -- simpl in Hlt. lia.
Qed.

(** The loop of lines 107-110 as [compare] calls it: fuel one more than
    the length of the list is enough, and the loop is the sweep. *)
Lemma removal_loop_sweep (B : list string) w :
  NoDup (file_id <$> fl_list w) ->
  FileList.removal_loop now (S (length (fl_list w))) B 0 w =
    (Ok (), mkWorld (sweep (keep_in B) (fl_list w)).1 (next_id w)
                    (records w ++ (removed_line <$> (sweep (keep_in B) (fl_list w)).2))).
Proof. intros Hnd. apply (removal_loop_sweep_from _ B [] (fl_list w) w); auto. Qed.
End Removal.

(** ** [compare] *)

Lemma sweep_all_keep keep l : Forall (fun x => keep x = true) l -> sweep keep l = (l, []).
Proof.
  induction l as [|x l IH]; intros Hl; [done|]. apply Forall_cons in Hl as [Hx Hl].
  rewrite sweep_cons_keep, IH by done. done.
Qed.


Section CompareThms.
Context {FS : Type} `{OsStat FS} (fs : FS) (now : string) (self : FileList).

(** The guard of line 89 is never taken: [compare] is its two passes. *)
Lemma compare_two_passes B w :
  FileList.compare fs now self B w =
    (py_for B (FileList.compare_file fs now self) ;;
     w' ← get (S:=World); FileList.removal_loop now (S (length (fl_list w'))) B 0) w.
Proof. reflexivity. Qed.

Lemma wf_sweep_world keep w1 next r :
  wf w1 -> next_id w1 <= next ->
  wf (mkWorld (sweep keep (fl_list w1)).1 next r).
Proof.
  intros [[Hid Hlt] Hp] Hn. pose proof (sweep_sublist keep (fl_list w1)) as Hs.
  split; [split|]; simpl.
  - eapply sublist_NoDup; [exact Hid|]. by apply sublist_fmap.
  - eapply Forall_sublist; [by apply sublist_fmap|]. eapply Forall_impl; [exact Hlt|]. simpl. lia.
  - eapply sublist_NoDup; [exact Hp|]. by apply sublist_fmap.
Qed.

(** The per-path body keeps the invariant whatever its outcome. *)
Lemma compare_file_wf file w : wf w -> wf (FileList.compare_file fs now self file w).2.
Proof.
  intros Hwf. destruct (decide (file ∈ path <$> fl_list w)) as [Hin|Hn].
  - apply list_elem_of_fmap in Hin as (cf & -> & Hcf).
    rewrite (run_compare_file_tracked fs now self _ _ cf) by (done || apply Hwf).
    destruct (os_stat_of fs (path cf)) as [st|]; [|done].
    case_decide; [done|]. by apply wf_upd.
  - rewrite run_compare_file_new by done.
    destruct (os_stat_of fs file) as [st|]; [by apply wf_snoc_new|by apply wf_records].
Qed.

(** The invariant together with a log that only grows from [r]. *)
Definition wf_log (r : list string) (w : World) : Prop := wf w /\ r `prefix_of` records w.

Lemma compare_file_wf_log r file w : wf_log r w -> wf_log r (FileList.compare_file fs now self file w).2.
Proof.
  intros [Hwf Hr]. split; [by apply compare_file_wf|]. etrans; [exact Hr|].
  destruct (decide (file ∈ path <$> fl_list w)) as [Hin|Hn].
  - apply list_elem_of_fmap in Hin as (cf & -> & Hcf).
    rewrite (run_compare_file_tracked fs now self _ _ cf) by (done || apply Hwf).
    destruct (os_stat_of fs (path cf)) as [st|]; [|done].
    case_decide; [done|]. by apply prefix_app_r.
  - rewrite run_compare_file_new by done.
    destruct (os_stat_of fs file); by apply prefix_app_r.
Qed.

(** [compare] keeps the invariant and only appends to the log, whatever
    its outcome. *)
Lemma compare_wf_log r (B : list string) w :
  wf_log r w -> wf_log r (FileList.compare fs now self B w).2.
Proof.
  intros Hw. rewrite compare_two_passes, run_bind.
  pose proof (py_for_preserves (wf_log r) B (FileList.compare_file fs now self) w
                (fun x s _ Hs => compare_file_wf_log r x s Hs) Hw) as [Hwf Hr].
  destruct (py_for B _ w) as [[[]|e] w1]; [|done]. simpl in Hwf, Hr.
  rewrite run_bind, run_get, removal_loop_sweep by apply Hwf.
  split; [by apply wf_sweep_world|]. simpl. etrans; [exact Hr|]. by apply prefix_app_r.
Qed.
End CompareThms.

Section CompareRun.
Context {FS : Type} `{OsStat FS} (fs : FS) (now : string) (self : FileList).

Lemma compare_run (B : list string) w :
  wf w -> statable fs B ->
  exists w1, wf w1 /\
    snapshot (fl_list w1) = (pass1 fs now (snapshot (fl_list w)) B).1 /\
    records w1 = records w ++ (pass1 fs now (snapshot (fl_list w)) B).2 /\
    stale_paths B (fl_list w1) = stale_paths B (fl_list w) /\
    FileList.compare fs now self B w =
      (Ok (), mkWorld (sweep (keep_in B) (fl_list w1)).1 (next_id w1)
                      (records w1 ++ (removed_line now <$> (sweep (keep_in B) (fl_list w1)).2))).
Proof.
  intros Hwf HB.
  destruct (pass1_loop_refines fs now self B w Hwf HB) as (w1 & Hrun & Hwf1 & Hsnap & Hrec & Hst).
  exists w1. do 4 (split; [by auto|]).
  rewrite compare_two_passes, (run_bind_ok _ _ _ _ _ Hrun), run_bind, run_get.
  apply removal_loop_sweep. apply Hwf1.
Qed.

(** The first pass updates entries in place and appends new ones: the
    tracked paths before it are a prefix of the tracked paths after it. *)
Lemma pass1_loop_paths (B : list string) w :
  wf w -> statable fs B ->
  exists w1 extra, py_for B (FileList.compare_file fs now self) w = (Ok (), w1) /\ wf w1 /\
    path <$> fl_list w1 = (path <$> fl_list w) ++ extra.
Proof.
  revert w. induction B as [|p B IH]; intros w Hwf HB.
  - exists w, []. by rewrite app_nil_r.
  - apply Forall_cons in HB as [[st Hst] HB].
    destruct (compare_file_refines fs now self p st w Hwf Hst) as (w' & Hrun & Hwf' & _ & _ & Hpaths).
    destruct (IH w' Hwf' HB) as (w1 & extra & Hrun1 & Hwf1 & Hp1).
    exists w1, ((if decide (p ∈ path <$> fl_list w) then [] else [p]) ++ extra).
    rewrite run_py_for_cons, (run_bind_ok _ _ _ _ _ Hrun). split; [done|]. split; [done|].
    by rewrite Hp1, Hpaths, app_assoc.
Qed.

(** When the first tracked entry is not in the scan, [compare] removes it
    and logs it, and the entry that was second is now first: the loop
    of lines 107-110 moves on to index 1 and never examines it. *)
Lemma compare_head_stale (B : list string) w g l :
  wf w -> statable fs B -> fl_list w = g :: l -> path g ∉ B ->
  exists w' L, FileList.compare fs now self B w = (Ok (), w') /\ wf w' /\
    records w' = records w ++ L /\ event_line now (path g) Removed ∈ L /\
    (path g ∉ path <$> fl_list w') /\
    (forall f2 rest, l = f2 :: rest -> exists h l', fl_list w' = h :: l' /\ path h = path f2).
Proof.
  intros Hwf HB Hl Hg.
  destruct (pass1_loop_paths B w Hwf HB) as (w1 & extra & Hrun & Hwf1 & Hp).
  destruct (pass1_loop_refines fs now self B w Hwf HB) as (w1' & Hrun' & _ & _ & Hrec & _).
  rewrite Hrun in Hrun'. injection Hrun' as <-.
  pose proof (compare_wf_log fs now self (records w) B w ltac:(split; [done|reflexivity])) as [Hwf' _].
  rewrite compare_two_passes, (run_bind_ok _ _ _ _ _ Hrun), run_bind, run_get,
    removal_loop_sweep in Hwf' |- * by apply Hwf1.
  pose proof (proj2 Hwf1) as Hnd. unfold paths_unique in Hnd.
  rewrite Hl in Hp. destruct (fl_list w1) as [|g1 l1] eqn:E1; [discriminate|].
  injection Hp as Hg1 Hp.
  assert (Hk : keep_in B g1 = false) by (apply py_in_false; by rewrite Hg1).
  eexists _, _. split; [reflexivity|]. split; [exact Hwf'|]. simpl.
  split; [by rewrite Hrec, <- app_assoc|]. split.
  { apply elem_of_app. right. apply list_elem_of_fmap. exists g1.
    split; [unfold removed_line; by rewrite Hg1|].
    destruct l1; simpl; rewrite Hk; by apply elem_of_cons; left. }
  rewrite fmap_cons in Hnd. apply NoDup_cons in Hnd as [Hn1 _]. split.
  - intros Hin. apply Hn1. rewrite Hg1. eapply elem_of_sublist; [exact Hin|]. apply sublist_fmap.
    destruct l1 as [|y l1]; simpl; rewrite Hk; [apply sublist_nil_l|].
    apply sublist_skip, sweep_sublist.
  - intros f2 rest ->. destruct l1 as [|y l1]; [discriminate|]. injection Hp as Hy _.
    simpl. rewrite Hk. by eexists _, _.
Qed.
End CompareRun.

Lemma stale_paths_files (B : list string) (l : list File) :
  stale_paths B l = path <$> filter (fun f => keep_in B f = false) l.
Proof.
  induction l as [|f l IH]; [done|]. unfold stale_paths in *.
  rewrite fmap_cons, !filter_cons. pose proof (py_in_false (path f) B) as Hpf.
  unfold keep_in at 1 2. do 2 case_decide; rewrite ?fmap_cons, ?IH; naive_solver.
Qed.

Lemma length_stale_paths (B : list string) (l : list File) :
  length (stale_paths B l) = length (filter (fun f => keep_in B f = false) l).
Proof. by rewrite stale_paths_files, length_fmap. Qed.

Lemma stale_paths_nil (B : list string) (l : list File) p :
  stale_paths B l = [] -> p ∈ path <$> l -> p ∈ B.
Proof.
  intros Hs Hp. destruct (decide (p ∈ B)) as [|Hn]; [done|].
  assert (p ∈ stale_paths B l) as Hin by (by apply list_elem_of_filter).
  rewrite Hs in Hin. by apply elem_of_nil in Hin.
Qed.

Lemma sweep_stale_le (B : list string) (l : list File) :
  length (stale_paths B (sweep (keep_in B) l).1) <= length (stale_paths B l).
Proof.
  rewrite !length_stale_paths. rewrite <- (sweep_partition (keep_in B) l) at 2.
  rewrite filter_app, length_app. lia.
Qed.

Lemma sweep_stale_lt (B : list string) (l : list File) :
  stale_paths B l <> [] ->
  length (stale_paths B (sweep (keep_in B) l).1) < length (stale_paths B l).
Proof.
  intros Hne. rewrite !length_stale_paths. apply sweep_progress.
  rewrite stale_paths_files in Hne. destruct (filter _ l) as [|f fs'] eqn:E; [done|].
  exists f. assert (f ∈ filter (fun f => keep_in B f = false) l) as Hf by (rewrite E; left).
  by apply list_elem_of_filter in Hf as [? ?].
Qed.

Section CompareStep.
Context {FS : Type} `{OsStat FS} (fs : FS) (now : string) (self : FileList).

(** One call of [compare]: the invariant, the scanned paths tracked with
    their current stat results, and fewer stale entries when some remain. *)
Lemma compare_step (B : list string) w :
  wf w -> statable fs B ->
  let w2 := (FileList.compare fs now self B w).2 in
  (FileList.compare fs now self B w).1 = Ok () /\ wf w2 /\
  (forall p, p ∈ B -> snapshot (fl_list w2) !! p = os_stat_of fs p) /\
  length (stale_paths B (fl_list w2)) <= length (stale_paths B (fl_list w)) /\
  (stale_paths B (fl_list w) <> [] ->
   length (stale_paths B (fl_list w2)) < length (stale_paths B (fl_list w))).
Proof.
  intros Hwf HB. destruct (compare_run fs now self B w Hwf HB)
    as (w1 & Hwf1 & Hsnap & _ & Hst & ->). simpl.
  split; [done|]. split; [by apply wf_sweep_world|]. split; [|rewrite <- Hst; split;
    [apply sweep_stale_le|apply sweep_stale_lt]].
  intros p Hp. destruct (statable_elem fs B p HB Hp) as [st Hst'].
  rewrite Hst'. pose proof (pass1_lookup fs now (snapshot (fl_list w)) B p HB) as Hl.
  rewrite decide_True, Hst', <- Hsnap in Hl by done.
  apply snapshot_Some in Hl as (f & Hf & Hpf & Haf); [|apply Hwf1].
  apply snapshot_Some; [apply (wf_sweep_world (keep_in B) w1 (next_id w1) [] Hwf1)|]; [done|].
  exists f. split; [|done]. apply sweep_kept; [done|]. apply py_in_true. by rewrite Hpf.
Qed.
End CompareStep.

Section Convergence.
Context {FS : Type} `{OsStat FS} (fs : FS) (now : string) (self : FileList).

(** [n] successive calls of [compare] on the same scan, as the polling
    loop of [main_function] makes them while the tree does not change. *)
Fixpoint compare_iter (n : nat) (B : list string) (w : World) : World :=
  match n with
  | O => w
  | S n' => compare_iter n' B (FileList.compare fs now self B w).2
  end.

Lemma compare_iter_facts k (B : list string) w :
  wf w -> statable fs B ->
  let wk := compare_iter (S k) B w in
  wf wk /\ (forall p, p ∈ B -> snapshot (fl_list wk) !! p = os_stat_of fs p) /\
  (stale_paths B (fl_list wk) = [] \/
   length (stale_paths B (fl_list wk)) + S k <= length (stale_paths B (fl_list w))).
Proof.
  revert w. induction k as [|k IH]; intros w Hwf HB;
    destruct (compare_step fs now self B w Hwf HB) as (_ & Hwf2 & Htr & Hle & Hlt).
  - simpl. split; [done|]. split; [done|].
    destruct (stale_paths B (fl_list w)) eqn:E; [left|right; specialize (Hlt ltac:(done)); lia].
    apply nil_length_inv. simpl in Hle. lia.
  - destruct (IH _ Hwf2 HB) as (Hwfk & Htrk & Hk). simpl in *.
    split; [done|]. split; [done|]. destruct Hk as [Hk|Hk]; [by left|].
    destruct (stale_paths B (fl_list w)) eqn:E.
    + left. apply nil_length_inv. simpl in Hle. lia.
    + right. specialize (Hlt ltac:(done)). lia.
Qed.

Lemma stale_paths_bound (B : list string) (l : list File) :
  length (stale_paths B l) <= length l.
Proof. unfold stale_paths. rewrite <- (length_fmap path l). apply length_filter. Qed.

Lemma tracked_of_snapshot (B : list string) (l : list File) p :
  statable fs B -> p ∈ B -> snapshot l !! p = os_stat_of fs p -> p ∈ path <$> l.
Proof.
  intros HB Hp Hl. destruct (statable_elem fs B p HB Hp) as [st Hst].
  rewrite Hst in Hl. destruct (decide (p ∈ path <$> l)) as [|Hn]; [done|].
  apply snapshot_None in Hn. congruence.
Qed.

Lemma compare_iter_converges (B : list string) w n :
  wf w -> statable fs B -> length (fl_list w) < n ->
  wf (compare_iter n B w) /\
  (forall p, p ∈ path <$> fl_list (compare_iter n B w) <-> p ∈ B) /\
  (forall p, p ∈ B -> snapshot (fl_list (compare_iter n B w)) !! p = os_stat_of fs p).
Proof.
  intros Hwf HB Hn. destruct n as [|k]; [lia|].
  destruct (compare_iter_facts k B w Hwf HB) as (Hwfk & Htr & Hst).
  split; [done|]. split; [|done]. intros p. split.
  - apply stale_paths_nil. destruct Hst as [|Hst]; [done|].
    pose proof (stale_paths_bound B (fl_list w)). lia.
  - intros Hp. by apply (tracked_of_snapshot B _ p HB Hp), Htr.
Qed.

(** Once the tracked paths are those of the scan, with their current
    stat results, a pass of [compare] changes nothing. *)
Lemma pass1_noop (B : list string) w :
  wf w -> statable fs B ->
  (forall p, p ∈ B -> snapshot (fl_list w) !! p = os_stat_of fs p) ->
  py_for B (FileList.compare_file fs now self) w = (Ok (), w).
Proof.
  intros Hwf HB Htr. induction B as [|p B IH]; [done|].
  apply Forall_cons in HB as [[st Hst] HB'].
  assert (snapshot (fl_list w) !! p = Some st) as Hl
    by (rewrite Htr, Hst; [done|by apply elem_of_cons; left]).
  apply snapshot_Some in Hl as (cf & Hcf & Hp & Ha); [|apply Hwf].
  rewrite run_py_for_cons, run_bind.
  rewrite (run_compare_file_tracked fs now self p w cf), Hst, decide_True by (done || apply Hwf).
  apply IH; [done|]. intros q Hq. apply Htr. by apply elem_of_cons; right.
Qed.
End Convergence.

(** ** Properties of [compare] *)

Section CompareProps.
Context {FS : Type} `{OsStat FS} (fs : FS) (now : string) (self : FileList).

(** C1: On a well-formed state, for a scan [B] whose every path can be
    stat'ed, [compare] returns normally.  Its first pass (lines 93-106)
    refines the abstract update [pass1]: the snapshot of the list becomes
    the old snapshot with every scanned path set to its current stat
    result, and the log receives the Added and Modified lines of
    [pass1].  Its second pass (lines 107-110) leaves the [sweep] of the
    resulting list and logs one Removed line per removed entry. *)
Theorem compare_spec (B : list string) w :
  wf w -> statable fs B ->
  exists w1,
    snapshot (fl_list w1) = (pass1 fs now (snapshot (fl_list w)) B).1 /\
    records w1 = records w ++ (pass1 fs now (snapshot (fl_list w)) B).2 /\
    FileList.compare fs now self B w =
      (Ok (), mkWorld (sweep (keep_in B) (fl_list w1)).1 (next_id w1)
                      (records w1 ++ (removed_line now <$> (sweep (keep_in B) (fl_list w1)).2))).
Proof.
  intros Hwf HB. destruct (compare_run fs now self B w Hwf HB) as (w1 & _ & ? & ? & _ & ?).
  eauto.
Qed.

(** C2: The removal loop of lines 107-110, which removes from
    [self.list] while iterating over it, terminates: with any fuel
    larger than the length of the list (the call site gives one more)
    it returns normally and computes the structural [sweep], in which
    every examined stale entry is removed and the entry that follows a
    removed one is never examined. *)
Theorem removal_loop_is_sweep fuel (B : list string) w :
  NoDup (file_id <$> fl_list w) -> length (fl_list w) < fuel ->
  FileList.removal_loop now fuel B 0 w =
    (Ok (), mkWorld (sweep (keep_in B) (fl_list w)).1 (next_id w)
                    (records w ++ (removed_line now <$> (sweep (keep_in B) (fl_list w)).2))).
Proof. intros Hnd Hlt. apply (removal_loop_sweep_from now fuel B [] (fl_list w) w); auto. Qed.

(** C3: [compare] preserves the invariant (distinct object identities,
    all below the identity counter, and distinct paths) whatever the
    scan and whatever the outcome, also when [os.stat] raises midway. *)
Theorem compare_preserves_wf (B : list string) w :
  wf w -> wf (FileList.compare fs now self B w).2.
Proof.
  intros Hwf. by apply (compare_wf_log fs now self (records w) B w).
Qed.

(** C4: After [compare] of a scan whose paths can all be stat'ed, every
    scanned path is tracked with its current stat result. *)
Theorem compare_tracks_scan (B : list string) w p :
  wf w -> statable fs B -> p ∈ B ->
  (FileList.compare fs now self B w).1 = Ok () /\
  snapshot (fl_list (FileList.compare fs now self B w).2) !! p = os_stat_of fs p.
Proof.
  intros Hwf HB Hp. destruct (compare_step fs now self B w Hwf HB) as (Hok & _ & Htr & _).
  split; [done|]. by apply Htr.
Qed.

(** C6: Repeated [compare] of an unchanged tree converges: after more
    calls than there were tracked entries, the tracked paths are exactly
    the scanned ones, each with its current stat result. *)
Theorem compare_converges (B : list string) w n :
  wf w -> statable fs B -> length (fl_list w) < n ->
  wf (compare_iter fs now self n B w) /\
  (forall p, p ∈ path <$> fl_list (compare_iter fs now self n B w) <-> p ∈ B) /\
  (forall p, p ∈ B -> snapshot (fl_list (compare_iter fs now self n B w)) !! p = os_stat_of fs p).
Proof. apply compare_iter_converges. Qed.

(** C7: Once the tracked paths are exactly the scanned ones with their
    current stat results, [compare] is silent and changes nothing. *)
Theorem compare_fixpoint (B : list string) w :
  wf w -> statable fs B ->
  Forall (fun f => path f ∈ B) (fl_list w) ->
  Forall (fun p => snapshot (fl_list w) !! p = os_stat_of fs p) B ->
  FileList.compare fs now self B w = (Ok (), w).
Proof.
  intros Hwf HB Hset Htr. rewrite Forall_forall in Hset. rewrite Forall_forall in Htr. rewrite compare_two_passes, (run_bind_ok _ _ _ _ _ (pass1_noop fs now self B w Hwf HB Htr)).
  rewrite run_bind, run_get, removal_loop_sweep by apply Hwf.
  rewrite sweep_all_keep; [by destruct w; simpl; rewrite app_nil_r|].
  apply Forall_forall. intros f Hf. by apply py_in_true, Hset.
Qed.
End CompareProps.

#[export] Instance wf_dec w : Decision (wf w).
Proof. unfold wf, ids_ok, paths_unique. apply _. Defined.

#[export] Instance statable_dec {F : Type} `{OsStat F} (fs : F) (B : list string) :
  Decision (statable fs B).
Proof. unfold statable. apply _. Defined.

(** ** Concrete runs: the scenarios of the spec (section 8) *)

Definition st_of (size mtime : Z) : stat_result :=
  mk_stat 33188 size 2049 1 1000 1000 size mtime mtime mtime.

(** After the first crawl of ["/a/1.txt"; "/a/2.txt"] (scenario 1), the
    tree now holds /a/1.txt and /a/3.txt (scenario 2). *)
Definition fs_s2 : stat_map :=
  <["/a/1.txt" := st_of 10 100]> (<["/a/3.txt" := st_of 30 300]> ∅).
Definition w_s1 : World :=
  mkWorld [mkFile 0 "/a/1.txt" (st_of 10 100); mkFile 1 "/a/2.txt" (st_of 20 200)] 2 [].
Definition B_s2 : list string := ["/a/1.txt"; "/a/3.txt"].
Definition self_ex : FileList := mkFileList false "/tmp/watch.log".
Definition now_ex : string := "2024-01-01 00:00:15".

(** The state once the scan of scenario 2 has been taken in. *)
Definition w_s2 : World :=
  mkWorld [mkFile 0 "/a/1.txt" (st_of 10 100); mkFile 2 "/a/3.txt" (st_of 30 300)] 3 [].

Lemma compare_spec_witness :
  wf w_s1 /\ statable fs_s2 B_s2 /\
  exists w1,
    snapshot (fl_list w1) = (pass1 fs_s2 now_ex (snapshot (fl_list w_s1)) B_s2).1 /\
    records w1 = records w_s1 ++ (pass1 fs_s2 now_ex (snapshot (fl_list w_s1)) B_s2).2 /\
    FileList.compare fs_s2 now_ex self_ex B_s2 w_s1 =
      (Ok (), mkWorld (sweep (keep_in B_s2) (fl_list w1)).1 (next_id w1)
                      (records w1 ++ (removed_line now_ex <$> (sweep (keep_in B_s2) (fl_list w1)).2))).
Proof.
  assert (Hw : wf w_s1) by by_compute. assert (HB : statable fs_s2 B_s2) by by_compute.
  split; [exact Hw|]. split; [exact HB|]. exact (compare_spec fs_s2 now_ex self_ex B_s2 w_s1 Hw HB).
Defined.

Lemma removal_loop_is_sweep_witness :
  NoDup (file_id <$> fl_list w_s1) /\ length (fl_list w_s1) < 3 /\
  FileList.removal_loop now_ex 3 B_s2 0 w_s1 =
    (Ok (), mkWorld (sweep (keep_in B_s2) (fl_list w_s1)).1 (next_id w_s1)
                    (records w_s1 ++ (removed_line now_ex <$> (sweep (keep_in B_s2) (fl_list w_s1)).2))).
Proof.
  assert (Hn : NoDup (file_id <$> fl_list w_s1)) by by_compute.
  assert (Hl : length (fl_list w_s1) < 3) by (simpl; lia).
  split; [exact Hn|]. split; [exact Hl|]. exact (removal_loop_is_sweep now_ex 3 B_s2 w_s1 Hn Hl).
Defined.

Lemma compare_preserves_wf_witness : wf w_s1 /\ wf (FileList.compare fs_s2 now_ex self_ex B_s2 w_s1).2.
Proof.
  assert (Hw : wf w_s1) by by_compute.
  split; [exact Hw|]. exact (compare_preserves_wf fs_s2 now_ex self_ex B_s2 w_s1 Hw).
Defined.

Lemma compare_tracks_scan_witness :
  wf w_s1 /\ statable fs_s2 B_s2 /\ "/a/3.txt" ∈ B_s2 /\
  (FileList.compare fs_s2 now_ex self_ex B_s2 w_s1).1 = Ok () /\
  snapshot (fl_list (FileList.compare fs_s2 now_ex self_ex B_s2 w_s1).2) !! "/a/3.txt" =
    os_stat_of fs_s2 "/a/3.txt".
Proof.
  assert (Hw : wf w_s1) by by_compute. assert (HB : statable fs_s2 B_s2) by by_compute.
  assert (Hp : "/a/3.txt" ∈ B_s2) by by_compute.
  split; [exact Hw|]. split; [exact HB|]. split; [exact Hp|].
  exact (compare_tracks_scan fs_s2 now_ex self_ex B_s2 w_s1 "/a/3.txt" Hw HB Hp).
Defined.

Lemma compare_converges_witness :
  wf w_s1 /\ statable fs_s2 B_s2 /\ length (fl_list w_s1) < 3 /\
  wf (compare_iter fs_s2 now_ex self_ex 3 B_s2 w_s1) /\
  (forall p, p ∈ path <$> fl_list (compare_iter fs_s2 now_ex self_ex 3 B_s2 w_s1) <-> p ∈ B_s2) /\
  (forall p, p ∈ B_s2 ->
     snapshot (fl_list (compare_iter fs_s2 now_ex self_ex 3 B_s2 w_s1)) !! p = os_stat_of fs_s2 p).
Proof.
  assert (Hw : wf w_s1) by by_compute. assert (HB : statable fs_s2 B_s2) by by_compute.
  assert (Hl : length (fl_list w_s1) < 3) by (simpl; lia).
  split; [exact Hw|]. split; [exact HB|]. split; [exact Hl|].
  exact (compare_converges fs_s2 now_ex self_ex B_s2 w_s1 3 Hw HB Hl).
Defined.

Lemma compare_fixpoint_witness :
  wf w_s2 /\ statable fs_s2 B_s2 /\ Forall (fun f => path f ∈ B_s2) (fl_list w_s2) /\
  Forall (fun p => snapshot (fl_list w_s2) !! p = os_stat_of fs_s2 p) B_s2 /\
  FileList.compare fs_s2 now_ex self_ex B_s2 w_s2 = (Ok (), w_s2).
Proof.
  assert (Hw : wf w_s2) by by_compute. assert (HB : statable fs_s2 B_s2) by by_compute.
  assert (Hs : Forall (fun f => path f ∈ B_s2) (fl_list w_s2)) by by_compute.
  assert (Ht : Forall (fun p => snapshot (fl_list w_s2) !! p = os_stat_of fs_s2 p) B_s2) by by_compute.
  split; [exact Hw|]. split; [exact HB|]. split; [exact Hs|]. split; [exact Ht|].
  exact (compare_fixpoint fs_s2 now_ex self_ex B_s2 w_s2 Hw HB Hs Ht).
Defined.

(** ** The defects, on concrete runs *)

(** Three tracked entries, of which only /c is still on disk. *)
Definition fs_c : stat_map := <["/c" := st_of 3 300]> ∅.
Definition w_abc : World :=
  mkWorld [mkFile 0 "/a" (st_of 1 100); mkFile 1 "/b" (st_of 2 200); mkFile 2 "/c" (st_of 3 300)] 3 [].

Section Skip.
Context {F : Type} `{OsStat F} (fs : F) (now : string) (self : FileList).

(** C5: The mapping does not converge in one call, contrary to the spec
    (section 8, "Mapping convergence"): when the first two tracked
    entries are both absent from the scan, [compare] removes the first,
    never examines the second (it took the first one's index in the list
    being iterated), and returns with the second still tracked although
    it is not in the scan. *)
Theorem compare_stale_survives (B : list string) w f1 f2 rest :
  wf w -> statable fs B -> fl_list w = f1 :: f2 :: rest -> path f1 ∉ B -> path f2 ∉ B ->
  exists w', FileList.compare fs now self B w = (Ok (), w') /\
    (path f1 ∉ path <$> fl_list w') /\ path f2 ∈ path <$> fl_list w'.
Proof.
  intros Hwf HB Hl H1 _.
  destruct (compare_head_stale fs now self B w f1 (f2 :: rest) Hwf HB Hl H1)
    as (w' & L & Hrun & _ & _ & _ & Hn & Hnext).
  destruct (Hnext f2 rest eq_refl) as (h & l' & Hw' & Hh).
  exists w'. split; [done|]. split; [done|]. rewrite Hw', fmap_cons, Hh. by apply elem_of_cons; left.
Qed.

(** C8: [compare] is not idempotent, contrary to the spec (section 8,
    "Idempotence"): in the same situation, a second call with the same
    scan on the same tree logs "was removed." for the second entry, which
    the first call skipped. *)
Theorem compare_not_idempotent (B : list string) w f1 f2 rest :
  wf w -> statable fs B -> fl_list w = f1 :: f2 :: rest -> path f1 ∉ B -> path f2 ∉ B ->
  exists w' w'' L, FileList.compare fs now self B w = (Ok (), w') /\
    FileList.compare fs now self B w' = (Ok (), w'') /\
    records w'' = records w' ++ L /\ event_line now (path f2) Removed ∈ L.
Proof.
  intros Hwf HB Hl H1 H2.
  destruct (compare_head_stale fs now self B w f1 (f2 :: rest) Hwf HB Hl H1)
    as (w' & L & Hrun & Hwf' & _ & _ & _ & Hnext).
  destruct (Hnext f2 rest eq_refl) as (h & l' & Hw' & Hh).
  destruct (compare_head_stale fs now self B w' h l' Hwf' HB Hw' ltac:(by rewrite Hh))
    as (w'' & L' & Hrun' & _ & Hrec & Hin & _).
  exists w', w'', L'. rewrite <- Hh. done.
Qed.
End Skip.

Lemma compare_stale_survives_witness :
  wf w_abc /\ statable fs_c ["/c"] /\ fl_list w_abc = mkFile 0 "/a" (st_of 1 100) ::
    mkFile 1 "/b" (st_of 2 200) :: [mkFile 2 "/c" (st_of 3 300)] /\
  ("/a" ∉ ["/c"]) /\ ("/b" ∉ ["/c"]) /\
  exists w', FileList.compare fs_c now_ex self_ex ["/c"] w_abc = (Ok (), w') /\
    ("/a" ∉ path <$> fl_list w') /\ "/b" ∈ path <$> fl_list w'.
Proof.
  assert (Hw : wf w_abc) by by_compute. assert (HB : statable fs_c ["/c"]) by by_compute.
  assert (Hl : fl_list w_abc = mkFile 0 "/a" (st_of 1 100) ::
    mkFile 1 "/b" (st_of 2 200) :: [mkFile 2 "/c" (st_of 3 300)]) by reflexivity.
  assert (Ha : "/a" ∉ ["/c"]) by by_compute. assert (Hb : "/b" ∉ ["/c"]) by by_compute.
  split; [exact Hw|]. split; [exact HB|]. split; [exact Hl|]. split; [exact Ha|]. split; [exact Hb|].
  exact (compare_stale_survives fs_c now_ex self_ex ["/c"] w_abc _ _ _ Hw HB Hl Ha Hb).
Defined.

Lemma compare_not_idempotent_witness :
  wf w_abc /\ statable fs_c ["/c"] /\ fl_list w_abc = mkFile 0 "/a" (st_of 1 100) ::
    mkFile 1 "/b" (st_of 2 200) :: [mkFile 2 "/c" (st_of 3 300)] /\
  ("/a" ∉ ["/c"]) /\ ("/b" ∉ ["/c"]) /\
  exists w' w'' L, FileList.compare fs_c now_ex self_ex ["/c"] w_abc = (Ok (), w') /\
    FileList.compare fs_c now_ex self_ex ["/c"] w' = (Ok (), w'') /\
    records w'' = records w' ++ L /\ event_line now_ex "/b" Removed ∈ L.
Proof.
  assert (Hw : wf w_abc) by by_compute. assert (HB : statable fs_c ["/c"]) by by_compute.
  assert (Hl : fl_list w_abc = mkFile 0 "/a" (st_of 1 100) ::
    mkFile 1 "/b" (st_of 2 200) :: [mkFile 2 "/c" (st_of 3 300)]) by reflexivity.
  assert (Ha : "/a" ∉ ["/c"]) by by_compute. assert (Hb : "/b" ∉ ["/c"]) by by_compute.
  split; [exact Hw|]. split; [exact HB|]. split; [exact Hl|]. split; [exact Ha|]. split; [exact Hb|].
  exact (compare_not_idempotent fs_c now_ex self_ex ["/c"] w_abc _ _ _ Hw HB Hl Ha Hb).
Defined.

(** ** A path that vanishes between the scan and [os.stat] *)

Section Vanished.
Context {FS : Type} `{OsStat FS} (fs : FS) (now : string) (self : FileList).

(** [compare] stops at the first scanned path that cannot be stat'ed. *)
Lemma compare_raises_at (B1 : list string) p (B2 : list string) w :
  wf w -> statable fs B1 -> os_stat_of fs p = None ->
  exists w', FileList.compare fs now self (B1 ++ p :: B2) w = (Raise (FileNotFoundError p), w') /\
    wf w' /\
    (p ∉ path <$> fl_list w -> p ∉ B1 -> last (records w') = Some (event_line now p Added)).
Proof.
  intros Hwf HB1 Hp.
  destruct (pass1_loop_refines fs now self B1 w Hwf HB1) as (w1 & Hrun & Hwf1 & Hsnap & _ & _).
  rewrite compare_two_passes, run_bind, run_py_for_app, run_bind, Hrun, run_py_for_cons, run_bind.
  destruct (decide (p ∈ path <$> fl_list w1)) as [Hin|Hn].
  - apply list_elem_of_fmap in Hin as (cf & -> & Hcf).
    rewrite (run_compare_file_tracked fs now self _ _ cf), Hp by (done || apply Hwf1).
    eexists. split; [done|]. split; [done|]. intros Hnw Hnb. exfalso.
    assert (snapshot (fl_list w1) !! path cf = None) as Hnone.
    { rewrite Hsnap, pass1_lookup, decide_False by done. by apply snapshot_None. }
    apply snapshot_None in Hnone. apply Hnone. by apply list_elem_of_fmap_2.
  - rewrite run_compare_file_new, Hp by done. eexists. split; [done|].
    split; [by apply wf_records|]. intros _ _. simpl. by rewrite last_snoc.
Qed.

(** C9: When a scanned path [p] cannot be stat'ed (it vanished after
    the scan), [compare] does not skip it as the spec says (section 4.2):
    it raises [FileNotFoundError p], which nothing in the program
    catches, after the paths before [p] were processed.  The state is
    still well formed, and when [p] was not tracked, the last log line
    already announces [p] as added, because [log(file, 1)] precedes
    [self.add(file)] (lines 105-106). *)
Theorem compare_vanished_raises (B1 : list string) p (B2 : list string) w :
  wf w -> statable fs B1 -> os_stat_of fs p = None ->
  exists w', FileList.compare fs now self (B1 ++ p :: B2) w = (Raise (FileNotFoundError p), w') /\
    wf w' /\
    (p ∉ path <$> fl_list w -> p ∉ B1 -> last (records w') = Some (event_line now p Added)).
Proof. apply compare_raises_at. Qed.
End Vanished.

Lemma compare_vanished_raises_witness :
  wf w_s1 /\ statable fs_s2 ["/a/1.txt"] /\ os_stat_of fs_s2 "/a/9.txt" = None /\
  exists w', FileList.compare fs_s2 now_ex self_ex (["/a/1.txt"] ++ "/a/9.txt" :: ["/a/3.txt"]) w_s1 =
               (Raise (FileNotFoundError "/a/9.txt"), w') /\ wf w' /\
    ("/a/9.txt" ∉ path <$> fl_list w_s1 -> "/a/9.txt" ∉ ["/a/1.txt"] ->
     last (records w') = Some (event_line now_ex "/a/9.txt" Added)).
Proof.
  assert (Hw : wf w_s1) by by_compute. assert (HB : statable fs_s2 ["/a/1.txt"]) by by_compute.
  assert (Hp : os_stat_of fs_s2 "/a/9.txt" = None) by (vm_compute; reflexivity).
  split; [exact Hw|]. split; [exact HB|]. split; [exact Hp|].
  exact (compare_vanished_raises fs_s2 now_ex self_ex ["/a/1.txt"] "/a/9.txt" ["/a/3.txt"] w_s1 Hw HB Hp).
Defined.

(** ** Reading a file changes its stat result *)

(** The stat result of a file after it was read: only [st_atime] moves. *)
Definition with_atime (st : stat_result) (t : Z) : stat_result :=
  mk_stat (st_mode st) (st_ino st) (st_dev st) (st_nlink st) (st_uid st)
          (st_gid st) (st_size st) t (st_mtime st) (st_ctime st).

(** C28: [same_attributes] compares the whole [os.stat_result], access
    time included (line 144): a tracked file that was only read, whose
    stat result differs from the stored one in [st_atime] alone, is
    reported "was modified." and its stored attributes are replaced. *)
Theorem compare_file_read_is_modified {F : Type} `{OsStat F} (fs : F) now self w cf t :
  wf w -> cf ∈ fl_list w -> t <> st_atime (attributes cf) ->
  os_stat_of fs (path cf) = Some (with_atime (attributes cf) t) ->
  FileList.compare_file fs now self (path cf) w =
    (Ok (), mkWorld (upd_attrs cf (with_atime (attributes cf) t) <$> fl_list w) (next_id w)
                    (records w ++ [event_line now (path cf) Modified])).
Proof.
  intros Hwf Hcf Ht Hst. rewrite (run_compare_file_tracked fs now self _ _ cf), Hst by (done || apply Hwf).
  rewrite decide_False; [done|]. intros E. apply Ht. by rewrite <- E.
Qed.

Lemma compare_file_read_is_modified_witness :
  wf w_s1 /\ mkFile 0 "/a/1.txt" (st_of 10 100) ∈ fl_list w_s1 /\
  101%Z <> st_atime (attributes (mkFile 0 "/a/1.txt" (st_of 10 100))) /\
  os_stat_of (<["/a/1.txt" := with_atime (st_of 10 100) 101]> fs_s2) "/a/1.txt" =
    Some (with_atime (st_of 10 100) 101) /\
  FileList.compare_file (<["/a/1.txt" := with_atime (st_of 10 100) 101]> fs_s2) now_ex self_ex "/a/1.txt" w_s1 =
    (Ok (), mkWorld (upd_attrs (mkFile 0 "/a/1.txt" (st_of 10 100)) (with_atime (st_of 10 100) 101)
                      <$> fl_list w_s1) (next_id w_s1)
                    (records w_s1 ++ [event_line now_ex "/a/1.txt" Modified])).
Proof.
  assert (Hw : wf w_s1) by by_compute.
  assert (Hc : mkFile 0 "/a/1.txt" (st_of 10 100) ∈ fl_list w_s1) by by_compute.
  assert (Ht : 101%Z <> st_atime (attributes (mkFile 0 "/a/1.txt" (st_of 10 100)))) by (simpl; lia).
  assert (Hs : os_stat_of (<["/a/1.txt" := with_atime (st_of 10 100) 101]> fs_s2) "/a/1.txt" =
    Some (with_atime (st_of 10 100) 101)) by (vm_compute; reflexivity).
  split; [exact Hw|]. split; [exact Hc|]. split; [exact Ht|]. split; [exact Hs|].
  exact (compare_file_read_is_modified _ now_ex self_ex w_s1 _ 101 Hw Hc Ht Hs).
Defined.

(** ** [FileList.add_list], the first crawl and the class attribute

    [add_list] (Watch.py 67-79) adds every path of a list, logging
    "was found." on the first crawl and "was added." otherwise.  Below:
    its run, the first crawl of [main_function] (line 235), that the
    branch of [compare] guarded by [self.length == 0] (lines 89-91), which
    is dead, would agree with the general path on an empty list, and that
    the list is shared by all instances (line 37). *)

Definition crawl_kind (first : bool) : event_kind := if first then Found else Added.

Section AddListRun.
Context {FS : Type} `{OsStat FS} (fs : FS) (now : string) (self : FileList).

Lemma run_add_list_cons p B first w st :
  os_stat_of fs p = Some st ->
  FileList.add_list fs now self (p :: B) first w =
    FileList.add_list fs now self B first
      (mkWorld (fl_list w ++ [mkFile (next_id w) p st]) (S (next_id w))
               (records w ++ [event_line now p (crawl_kind first)])).
Proof.
  intros Hst. unfold FileList.add_list. rewrite run_py_for_cons, !run_bind, run_add, Hst.
  destruct first; rewrite run_log_world;
    [rewrite (log_message_kind now p Found : log_message now p 4 = _)
    |rewrite (log_message_kind now p Added : log_message now p 1 = _)]; done.
Qed.

(** The run of [add_list] on a list whose paths can all be stat'ed. *)
Lemma add_list_run (B : list string) first w :
  statable fs B ->
  exists w', FileList.add_list fs now self B first w = (Ok (), w') /\
    path <$> fl_list w' = (path <$> fl_list w) ++ B /\
    records w' = records w ++ ((fun p => event_line now p (crawl_kind first)) <$> B) /\
    (ids_ok w -> ids_ok w') /\
    (forall f, f ∈ fl_list w' -> f ∈ fl_list w \/ os_stat_of fs (path f) = Some (attributes f)).
Proof.
  revert w. induction B as [|p B IH]; intros w HB.
  - exists w. rewrite !app_nil_r. split; [done|]. split; [done|]. split; [done|]. split; auto.
  - apply Forall_cons in HB as [[st Hst] HB].
    destruct (IH (mkWorld (fl_list w ++ [mkFile (next_id w) p st]) (S (next_id w))
                      (records w ++ [event_line now p (crawl_kind first)])) HB)
      as (w' & Hrun & Hp & Hr & Hids & Hf).
    exists w'. rewrite (run_add_list_cons p B first w st) by done. split; [done|].
    simpl in Hp, Hr. rewrite Hp, Hr, fmap_app, <- !app_assoc. split; [done|]. split; [done|].
    split; [intros Hw; by apply Hids, ids_ok_snoc|].
    intros f Hin. destruct (Hf f Hin) as [Hold|]; [|by right].
    apply elem_of_app in Hold as [Hold|Hold]; [by left|].
    apply list_elem_of_singleton in Hold as ->. right. simpl. by rewrite Hst.
Qed.

(** [add_list] of distinct untracked paths keeps the invariant and only
    appends to the log, also when [os.stat] raises. *)
Lemma add_list_wf_log r (B : list string) first w :
  wf_log r w -> NoDup B -> (forall q, q ∈ B -> q ∉ path <$> fl_list w) ->
  wf_log r (FileList.add_list fs now self B first w).2.
Proof.
  revert w. induction B as [|p B IH]; intros w Hw Hnd Hn; [done|].
  apply NoDup_cons in Hnd as [Hp Hnd].
  destruct (os_stat_of fs p) as [st|] eqn:Hst.
  - rewrite (run_add_list_cons p B first w st Hst). apply IH; [|done|].
    + split; [apply wf_snoc_new; [apply Hw|apply Hn; by apply elem_of_cons; left]|].
      simpl. etrans; [apply Hw|]. by apply prefix_app_r.
    + intros q Hq. simpl. rewrite fmap_app. apply not_elem_of_app. split.
      * apply Hn. by apply elem_of_cons; right.
      * intros ->%list_elem_of_singleton. contradiction.
  - unfold FileList.add_list. rewrite run_py_for_cons, !run_bind, run_add, Hst. done.
Qed.

(** On a list with none of [B] tracked yet, the per-path body of
    [compare] does what the body of [add_list] does with [first = False]. *)
Lemma compare_loop_as_add_list (B : list string) w :
  NoDup B -> statable fs B -> (forall q, q ∈ B -> q ∉ path <$> fl_list w) ->
  py_for B (FileList.compare_file fs now self) w = FileList.add_list fs now self B false w.
Proof.
  revert w. induction B as [|p B IH]; intros w Hnd HB Hn; [done|].
  apply NoDup_cons in Hnd as [Hp Hnd]. apply Forall_cons in HB as [[st Hst] HB].
  rewrite (run_add_list_cons p B false w st) by done. rewrite run_py_for_cons, run_bind, run_compare_file_new, Hst.
  - apply IH; [done|done|]. intros q Hq. simpl. rewrite fmap_app. apply not_elem_of_app. split.
    + apply Hn. by apply elem_of_cons; right.
    + intros ->%list_elem_of_singleton. by apply Hp.
  - apply Hn. by apply elem_of_cons; left.
Qed.
End AddListRun.

Lemma ids_ok_empty w : fl_list w = [] -> ids_ok w.
Proof. intros Hw. unfold ids_ok. rewrite Hw. split; constructor. Qed.

Section AddListProps.
Context {FS : Type} `{OsStat FS} (fs : FS) (now : string) (self : FileList).

(** C10: The branch of [compare] guarded by [self.length == 0] (lines
    89-91) is dead: [self.length] without a call is a bound method, never
    equal to an int, so [compare] always runs its two passes.  Had the
    guard been the intended [self.length() == 0], the branch would not
    change the outcome for a scan without duplicates whose paths can be
    stat'ed: on an empty list, [compare] is [add_list(filelist, False)]. *)
Theorem compare_empty_as_add_list (B : list string) w :
  fl_list w = [] -> NoDup B -> statable fs B ->
  py_eq (PyBoundMethod "FileList" "length") (PyInt 0) = false /\
  FileList.compare fs now self B w = FileList.add_list fs now self B false w.
Proof.
  intros Hw Hnd HB. split; [done|].
  destruct (add_list_run fs now self B false w HB) as (w' & Hrun & Hp & _ & Hids & _).
  rewrite compare_two_passes, run_bind, compare_loop_as_add_list, Hrun
    by (done || (intros q _; rewrite Hw; apply not_elem_of_nil)).
  rewrite run_bind, run_get, removal_loop_sweep by (apply Hids, ids_ok_empty, Hw).
  rewrite sweep_all_keep; [by destruct w'; simpl; rewrite app_nil_r|].
  apply Forall_forall. intros f Hf. apply py_in_true.
  rewrite Hw in Hp. simpl in Hp. rewrite <- Hp. by apply list_elem_of_fmap_2.
Qed.

(** C11: The first crawl ([add_list(paths, True)] on the empty list, line
    235) of a scan without duplicates whose paths can be stat'ed tracks
    exactly the scanned paths, in scan order, each with its current stat
    result, in a well-formed state, and logs one "was found." line per
    path. *)
Theorem add_list_first_crawl (B : list string) w :
  fl_list w = [] -> NoDup B -> statable fs B ->
  exists w', FileList.add_list fs now self B true w = (Ok (), w') /\ wf w' /\
    path <$> fl_list w' = B /\
    (forall p, snapshot (fl_list w') !! p = if decide (p ∈ B) then os_stat_of fs p else None) /\
    records w' = records w ++ ((fun p => event_line now p Found) <$> B).
Proof.
  intros Hw Hnd HB.
  destruct (add_list_run fs now self B true w HB) as (w' & Hrun & Hp & Hr & Hids & Hf).
  rewrite Hw in Hp. simpl in Hp.
  assert (Hwf : wf w') by (split; [by apply Hids, ids_ok_empty|unfold paths_unique; by rewrite Hp]).
  exists w'. split; [done|]. split; [done|]. split; [done|]. split; [|done].
  intros p. case_decide as Hin.
  - rewrite <- Hp in Hin. apply list_elem_of_fmap in Hin as (f & -> & Hfin).
    destruct (Hf f Hfin) as [Hold|Hst]; [rewrite Hw in Hold; by apply elem_of_nil in Hold|].
    rewrite Hst. apply snapshot_Some; [apply Hwf|]. eauto.
  - apply snapshot_None. by rewrite Hp.
Qed.
End AddListProps.

Section Shared.
Context {FS : Type} `{OsStat FS} (fs : FS) (now : string).

(** C12: [FileList.list] is a class attribute, shared by every instance,
    contrary to the spec's instance-owned mapping (section 9): an instance
    created after another one added [B] reports, through its own
    [length()], the entries the first one added. *)
Theorem class_list_shared d1 lf1 d2 lf2 (B : list string) w :
  statable fs B ->
  ((a ← FileList.init d1 lf1; FileList.add_list fs now a B true ;;
    b ← FileList.init d2 lf2; FileList.length b) w).1 =
  Ok (Z.of_nat (length (fl_list w) + length B)).
Proof.
  intros HB. unfold FileList.init. rewrite run_bind, run_ret, run_bind.
  destruct (add_list_run fs now (mkFileList d1 lf1) B true w HB) as (w' & -> & Hp & _).
  rewrite run_bind, run_ret. unfold FileList.length. rewrite run_bind, run_get, run_ret. simpl.
  rewrite <- (length_fmap path (fl_list w')), Hp, length_app, length_fmap. done.
Qed.
End Shared.

(** ** Scenario 1 of the spec: the first crawl of /a/1.txt and /a/2.txt *)

Definition fs_s1 : stat_map :=
  <["/a/1.txt" := st_of 10 100]> (<["/a/2.txt" := st_of 20 200]> ∅).
Definition B_s1 : list string := ["/a/1.txt"; "/a/2.txt"].
Definition w_empty : World := mkWorld [] 0 [].

Lemma compare_empty_as_add_list_witness :
  fl_list w_empty = [] /\ NoDup B_s1 /\ statable fs_s1 B_s1 /\
  py_eq (PyBoundMethod "FileList" "length") (PyInt 0) = false /\
  FileList.compare fs_s1 now_ex self_ex B_s1 w_empty = FileList.add_list fs_s1 now_ex self_ex B_s1 false w_empty.
Proof.
  assert (He : fl_list w_empty = []) by reflexivity.
  assert (Hn : NoDup B_s1) by by_compute. assert (HB : statable fs_s1 B_s1) by by_compute.
  split; [exact He|]. split; [exact Hn|]. split; [exact HB|].
  exact (compare_empty_as_add_list fs_s1 now_ex self_ex B_s1 w_empty He Hn HB).
Defined.

Lemma add_list_first_crawl_witness :
  fl_list w_empty = [] /\ NoDup B_s1 /\ statable fs_s1 B_s1 /\
  exists w', FileList.add_list fs_s1 now_ex self_ex B_s1 true w_empty = (Ok (), w') /\ wf w' /\
    path <$> fl_list w' = B_s1 /\
    (forall p, snapshot (fl_list w') !! p = if decide (p ∈ B_s1) then os_stat_of fs_s1 p else None) /\
    records w' = records w_empty ++ ((fun p => event_line now_ex p Found) <$> B_s1).
Proof.
  assert (He : fl_list w_empty = []) by reflexivity.
  assert (Hn : NoDup B_s1) by by_compute. assert (HB : statable fs_s1 B_s1) by by_compute.
  split; [exact He|]. split; [exact Hn|]. split; [exact HB|].
  exact (add_list_first_crawl fs_s1 now_ex self_ex B_s1 w_empty He Hn HB).
Defined.

Lemma class_list_shared_witness :
  statable fs_s1 B_s1 /\
  ((a ← FileList.init false "/tmp/a.log" ; FileList.add_list fs_s1 now_ex a B_s1 true ;;
    b ← FileList.init true "/tmp/b.log"; FileList.length b) w_empty).1 =
  Ok (Z.of_nat (length (fl_list w_empty) + length B_s1)).
Proof.
  assert (HB : statable fs_s1 B_s1) by by_compute.
  split; [exact HB|].
  exact (class_list_shared fs_s1 now_ex false "/tmp/a.log" true "/tmp/b.log" B_s1 w_empty HB).
Defined.
