(* ===== verification/Walk.v ===== *)
(** * The scanner [folder_analyze] of Watch.py (lines 173-196)

    [folder_analyze(local_folder, subfolders_max_number)] iterates over
    [os.walk(local_folder, topdown=True)].  For each directory [path] the
    generator yields, the loop body appends the joined paths of the files
    whose name does not start with ["."], then of all subdirectories, and
    empties [dirs] in place ([del dirs[:]]) when [path.count(os.sep)] is at
    least the maximum: the generator, resumed, then walks the subdirectories
    left in [dirs].  The model fuses the generator and the loop body in
    that order: [walk] lists the directory, runs [analyze_body] (the loop
    body), and recurses into the [dirs] the body left.

    The file system [tree_fs] maps an absolute path to a node, a file or a
    directory with the names of its entries in [os.scandir] order; it
    implements [os.stat] ([File.OsStat]).  [path_join] is [posixpath.join]
    for two arguments.  Symbolic links are not modelled.

    The recursion of [os.walk] has no bound of its own; it stops because
    the body prunes [dirs] once the separator count reaches the maximum,
    and each level adds one separator.  [walk] takes fuel, and
    [folder_analyze] gives it [Z.to_nat subfolders_max_number + 2], which
    [walk_fuel_enough] proves enough. *)

From stdpp Require Import base list gmap strings.
From Stdlib Require Import ZArith Ascii.
From S2P Require Import Prelude Logging File FileList Compare.

Inductive node :=
  | NFile (st : stat_result)
  | NDir (st : stat_result) (names : list string).

Abbreviation tree_fs := (gmap string node).

Definition node_stat (n : node) : stat_result :=
  match n with NFile st => st | NDir st _ => st end.

#[export] Instance tree_fs_os : OsStat tree_fs := fun fs p => node_stat <$> fs !! p.

(** [str.count(c)] for a one-character [c]. *)
Fixpoint str_count (c : Ascii.ascii) (s : string) : nat :=
  match s with
  | EmptyString => 0
  | String d s' => (if Ascii.eqb c d then 1 else 0) + str_count c s'
  end.

Definition starts_with_sep (s : string) : bool :=
  match s with String c _ => Ascii.eqb c "/"%char | EmptyString => false end.

Definition ends_with_sep (s : string) : bool :=
  match srev s with String c _ => Ascii.eqb c "/"%char | EmptyString => false end.

(** [posixpath.join(a, b)]. *)
Definition path_join (a b : string) : string :=
  if starts_with_sep b then b
  else if String.eqb a "" || ends_with_sep a then a +:+ b
  else a +:+ String "/"%char b.

(** [os.scandir(top)]: the entry names of a directory, or the [OSError]
    that [os.walk] ignores ([onerror=None]). *)
Definition os_scandir (fs : tree_fs) (top : string) : option (list string) :=
  match fs !! top with Some (NDir _ names) => Some names | _ => None end.

(** [entry.is_dir()]: false also when the entry has vanished. *)
Definition entry_is_dir (fs : tree_fs) (top name : string) : bool :=
  match fs !! path_join top name with Some (NDir _ _) => true | _ => false end.

(** Line 185, [[f for f in files if f[0] is not "."]]: [f[0]] raises
    [IndexError] on an empty name; the identity test behaves as [!=]
    on the cached one-character strings of CPython. *)
Fixpoint filter_hidden (files : list string) : PyM (list string) (list string) :=
  match files with
  | [] => mret []
  | f :: rest =>
      match f with
      | EmptyString => mthrow (IndexError "string index out of range")
      | String c _ =>
          r ← filter_hidden rest;
          mret (if Ascii.eqb c "."%char then r else f :: r)
      end
  end.

(** The loop body of lines 184-195 for one directory [path]; the state is
    [files_list], the result the list [dirs] after the body (emptied by
    [del dirs[:]]). *)
Definition analyze_body (subfolders_max_number : Z) (path : string) (dirs files : list string)
    : PyM (list string) (list string) :=
  files' ← filter_hidden files;
  py_for files' (fun name => modify (fun l => l ++ [path_join path name])) ;;
  py_for dirs (fun name => modify (fun l => l ++ [path_join path name])) ;;
  if bool_decide (subfolders_max_number <= Z.of_nat (str_count "/"%char path))%Z
  then mret []
  else mret dirs.

(** [os.walk] top-down, with the body run at each directory it yields. *)
Fixpoint walk (fs : tree_fs) (subfolders_max_number : Z) (fuel : nat) (top : string)
    : PyM (list string) unit :=
  match fuel with
  | O => mret ()
  | S fuel' =>
      match os_scandir fs top with
      | None => mret ()
      | Some names =>
          let dirs := filter (fun n => entry_is_dir fs top n = true) names in
          let nondirs := filter (fun n => entry_is_dir fs top n = false) names in
          dirs' ← analyze_body subfolders_max_number top dirs nondirs;
          py_for dirs' (fun d => walk fs subfolders_max_number fuel' (path_join top d))
      end
  end.

Definition walk_fuel (subfolders_max_number : Z) : nat := Z.to_nat subfolders_max_number + 2.

Definition folder_analyze (fs : tree_fs) (local_folder : string) (subfolders_max_number : Z)
    : outcome (list string) :=
  match walk fs subfolders_max_number (walk_fuel subfolders_max_number) local_folder [] with
  | (Ok (), files_list) => Ok files_list
  | (Raise e, _) => Raise e
  end.

(** ** Well-formed file systems *)

(** A directory entry name: not empty, without a separator. *)
Definition name_ok (n : string) : Prop := n <> "" /\ str_count "/"%char n = 0.

#[export] Instance name_ok_dec n : Decision (name_ok n).
Proof. unfold name_ok. apply _. Defined.

(** Every directory lists distinct well-formed names, each of which is an
    entry of the file system. *)
Definition dir_ok (fs : tree_fs) (p : string) (nd : node) : Prop :=
  match nd with
  | NDir _ names => NoDup names /\ Forall (fun n => name_ok n /\ is_Some (fs !! path_join p n)) names
  | NFile _ => True
  end.

Definition fs_wf (fs : tree_fs) : Prop := Forall (fun '(p, nd) => dir_ok fs p nd) (map_to_list fs).

#[export] Instance fs_wf_dec fs : Decision (fs_wf fs).
Proof.
  unfold fs_wf. apply Forall_dec. intros [p [st|st names]]; simpl; apply _.
Defined.

Lemma fs_wf_dir fs p st names :
  fs_wf fs -> fs !! p = Some (NDir st names) ->
  NoDup names /\ Forall (fun n => name_ok n /\ is_Some (fs !! path_join p n)) names.
Proof.
  intros Hwf Hp. unfold fs_wf in Hwf. rewrite Forall_forall in Hwf.
  apply (Hwf (p, NDir st names)). by apply elem_of_map_to_list.
Qed.

Lemma fs_wf_name fs p st names n :
  fs_wf fs -> fs !! p = Some (NDir st names) -> n ∈ names ->
  name_ok n /\ is_Some (fs !! path_join p n).
Proof.
  intros Hwf Hp Hn. destruct (fs_wf_dir fs p st names Hwf Hp) as [_ Hall].
  rewrite Forall_forall in Hall. by apply Hall.
Qed.

(** ** Separators *)

Lemma str_count_app c a b : str_count c (a +:+ b) = str_count c a + str_count c b.
Proof. induction a as [|d a IH]; [done|]. rewrite append_cons. simpl. rewrite IH. lia. Qed.

Lemma name_ok_no_sep_start n : name_ok n -> starts_with_sep n = false.
Proof.
  intros [Hne Hc]. destruct n as [|c n]; [done|]. unfold starts_with_sep.
  cbn [str_count] in Hc. destruct (Ascii.eqb_spec c "/"%char) as [->|]; [|done].
  rewrite Ascii.eqb_refl in Hc. cbn in Hc. lia.
Qed.

Lemma srev_nonempty s : s <> "" -> srev s <> "".
Proof.
  destruct s as [|c s]; [done|]. intros _. simpl.
  destruct (srev s); rewrite ?append_empty_l, ?append_cons; discriminate.
Qed.

Lemma str_count_srev c s : str_count c (srev s) = str_count c s.
Proof. induction s as [|d s IH]; [done|]. simpl. rewrite str_count_app, IH. simpl. lia. Qed.

(** A path that ends with a name does not end with a separator. *)
Lemma ends_with_sep_name a n : name_ok n -> ends_with_sep (a +:+ n) = false.
Proof.
  intros [Hne Hc]. unfold ends_with_sep. rewrite srev_app.
  pose proof (srev_nonempty n Hne) as Hr. pose proof (str_count_srev "/"%char n) as Hcr.
  destruct (srev n) as [|c r]; [done|]. rewrite append_cons.
  rewrite Hc in Hcr. cbn [str_count] in Hcr.
  destruct (Ascii.eqb_spec c "/"%char) as [->|]; [|done].
  rewrite Ascii.eqb_refl in Hcr. cbn in Hcr. lia.
Qed.

Lemma path_join_name a n :
  name_ok n ->
  path_join a n = (if String.eqb a "" || ends_with_sep a then a +:+ n else a +:+ String "/"%char n).
Proof. intros Hn. unfold path_join. by rewrite name_ok_no_sep_start. Qed.

Lemma path_join_nonempty a n : name_ok n -> path_join a n <> "".
Proof.
  intros Hn. rewrite path_join_name by done. destruct Hn as [Hne _].
  destruct (_ || _); intros E; apply (f_equal String.length) in E;
    rewrite ?append_length in E; destruct a; simpl in *; try discriminate;
    destruct n; simpl in *; congruence || lia.
Qed.

Lemma str_count_path_join a n :
  name_ok n ->
  str_count "/"%char (path_join a n) =
    str_count "/"%char a + (if String.eqb a "" || ends_with_sep a then 0 else 1).
Proof.
  intros Hn. rewrite path_join_name by done. pose proof (proj2 Hn) as Hc.
  destruct (_ || _); rewrite str_count_app; [rewrite Hc; lia|].
  cbn [str_count]. rewrite Ascii.eqb_refl, Hc. cbn. lia.
Qed.

Lemma str_count_path_join_le a n :
  name_ok n -> str_count "/"%char (path_join a n) <= str_count "/"%char a + 1.
Proof. intros Hn. rewrite str_count_path_join by done. destruct (_ || _); lia. Qed.

(** ** Runs of the loop body *)

(** The names the filter of line 185 drops. *)
Definition hidden (n : string) : bool :=
  match n with String c _ => Ascii.eqb c "."%char | EmptyString => false end.

Lemma run_filter_hidden files (s : list string) :
  filter_hidden files s =
    if forallb (fun n => negb (String.eqb n "")) files
    then (Ok (filter (fun n => hidden n = false) files), s)
    else (Raise (IndexError "string index out of range"), s).
Proof.
  induction files as [|f files IH]; [done|].
  destruct f as [|c f]; [done|]. cbn [filter_hidden forallb]. rewrite run_bind, IH.
  cbn [String.eqb negb andb]. destruct (forallb _ files); [|done].
  rewrite run_ret, filter_cons. change (hidden (String c f)) with (Ascii.eqb c "."%char).
  destruct (Ascii.eqb c "."%char); [rewrite decide_False by done|rewrite decide_True by done]; done.
Qed.

Lemma analyze_body_appends maxd top dirs files acc p :
  p ∈ (analyze_body maxd top dirs files acc).2 ->
  p ∈ acc \/ (exists n, n ∈ files /\ hidden n = false /\ p = path_join top n) \/
  (exists n, n ∈ dirs /\ p = path_join top n).
Proof.
  set (P := fun s : list string => forall q, q ∈ s -> q ∈ acc \/
     (exists n, n ∈ files /\ hidden n = false /\ q = path_join top n) \/
     (exists n, n ∈ dirs /\ q = path_join top n)).
  assert (Happ : forall n s, P s -> (n ∈ files /\ hidden n = false) \/ n ∈ dirs ->
                 P (s ++ [path_join top n])).
  { intros n s Hs Hn q Hq. apply elem_of_app in Hq as [Hq|Hq]; [by apply Hs|].
    apply list_elem_of_singleton in Hq as ->. right.
    destruct Hn as [[? ?]|?]; [left|right]; eauto. }
  revert p. change (P (analyze_body maxd top dirs files acc).2).
  unfold analyze_body. rewrite run_bind, run_filter_hidden.
  destruct (forallb _ files); [|intros q Hq; by left]. cbn beta iota.
  apply preserves_bind.
  - intros s Hs. apply py_for_preserves; [|done]. intros n s' Hn Hs'.
    apply list_elem_of_filter in Hn as [Hh Hn]. apply Happ; auto.
  - intros [] s Hs. apply preserves_bind.
    + intros s' Hs'. apply py_for_preserves; [|done]. intros n s'' Hn Hs''. apply Happ; auto.
    + intros [] s' Hs'. by case_bool_decide.
    + done.
  - intros q Hq. by left.
Qed.

Lemma analyze_body_result maxd top dirs files acc dirs' s' :
  analyze_body maxd top dirs files acc = (Ok dirs', s') ->
  dirs' = [] \/ (dirs' = dirs /\ (Z.of_nat (str_count "/"%char top) < maxd)%Z).
Proof.
  unfold analyze_body. rewrite run_bind, run_filter_hidden.
  destruct (forallb _ files); [|discriminate]. cbn beta iota. rewrite run_bind.
  destruct (py_for _ _ acc) as [[[]|e] s1]; [|discriminate]. rewrite run_bind.
  destruct (py_for _ _ s1) as [[[]|e] s2]; [|discriminate].
  case_bool_decide; intros [= <- _]; [by left|right; split; [done|lia]].
Qed.

(** The paths [walk] lists from [top]: the entries of [top] (hidden files
    excepted), and, when [top] has fewer separators than the maximum, the
    paths listed from its subdirectories. *)
Inductive emitted (fs : tree_fs) (maxd : Z) : string -> string -> Prop :=
  | em_entry top st names n :
      fs !! top = Some (NDir st names) -> n ∈ names ->
      (entry_is_dir fs top n = false -> hidden n = false) ->
      emitted fs maxd top (path_join top n)
  | em_sub top st names d p :
      fs !! top = Some (NDir st names) -> d ∈ names -> entry_is_dir fs top d = true ->
      (Z.of_nat (str_count "/"%char top) < maxd)%Z ->
      emitted fs maxd (path_join top d) p -> emitted fs maxd top p.

Lemma walk_emitted fs maxd fuel top acc p :
  p ∈ (walk fs maxd fuel top acc).2 -> p ∈ acc \/ emitted fs maxd top p.
Proof.
  revert top acc p. induction fuel as [|fuel IH]; intros top acc p; [by left|].
  cbn [walk]. unfold os_scandir. destruct (fs !! top) as [[st|st names]|] eqn:Htop; [by left| |by left].
  set (dirs := filter (fun n => entry_is_dir fs top n = true) names).
  set (nondirs := filter (fun n => entry_is_dir fs top n = false) names).
  assert (Hentry : forall q, q ∈ (analyze_body maxd top dirs nondirs acc).2 ->
                   q ∈ acc \/ emitted fs maxd top q).
  { intros q Hq. destruct (analyze_body_appends maxd top dirs nondirs acc q Hq)
      as [?|[(n & Hn & Hh & ->)|(n & Hn & ->)]]; [by left|right..].
    - apply list_elem_of_filter in Hn as [Hd Hn]. by eapply em_entry.
    - apply list_elem_of_filter in Hn as [Hd Hn]. eapply em_entry; [done|done|congruence]. }
  rewrite run_bind. pose proof (analyze_body_result maxd top dirs nondirs acc) as Hres.
  destruct (analyze_body maxd top dirs nondirs acc) as [[dirs'|e] s1] eqn:Hab; [|apply Hentry].
  revert p. change ((fun s => forall q, q ∈ s -> q ∈ acc \/ emitted fs maxd top q)
                    (py_for dirs' (fun d => walk fs maxd fuel (path_join top d)) s1).2).
  apply py_for_preserves; [|exact Hentry].
  intros d s Hd Hs q Hq. apply IH in Hq as [Hq|Hq]; [by apply Hs|]. right.
  destruct (Hres dirs' s1 eq_refl) as [->|[-> Hlt]]; [by apply elem_of_nil in Hd|].
  apply list_elem_of_filter in Hd as [Hdir Hd]. by eapply em_sub.
Qed.

(** ** Lemmas on the listed paths *)

Section Listed.
Context (fs : tree_fs) (maxd : Z).

Lemma emitted_statable top p : fs_wf fs -> emitted fs maxd top p -> is_Some (fs !! p).
Proof.
  intros Hwf. induction 1 as [top st names n Htop Hn _|]; [|done].
  by apply (fs_wf_name fs top st names n Hwf Htop Hn).
Qed.

Lemma emitted_depth top p :
  fs_wf fs -> emitted fs maxd top p ->
  (Z.of_nat (str_count "/"%char p) <= Z.max (Z.of_nat (str_count "/"%char top)) maxd + 1)%Z.
Proof.
  intros Hwf. induction 1 as [top st names n Htop Hn _|top st names d p Htop Hd _ Hlt _ IH].
  - pose proof (str_count_path_join_le top n (proj1 (fs_wf_name fs top st names n Hwf Htop Hn))). lia.
  - pose proof (str_count_path_join_le top d (proj1 (fs_wf_name fs top st names d Hwf Htop Hd))). lia.
Qed.

Lemma emitted_entry top p :
  emitted fs maxd top p ->
  exists parent st names n, fs !! parent = Some (NDir st names) /\ n ∈ names /\
    p = path_join parent n /\ (entry_is_dir fs parent n = false -> hidden n = false).
Proof. induction 1; [|done]. eexists _, _, _, _. eauto. Qed.


Lemma analyze_body_ok top dirs files acc :
  Forall (fun n => n <> "") files ->
  exists dirs', (analyze_body maxd top dirs files acc).1 = Ok dirs'.
Proof.
  intros Hne. unfold analyze_body. rewrite run_bind, run_filter_hidden.
  replace (forallb _ files) with true; cbn beta iota.
  2: { symmetry. apply forallb_forall. intros n Hn%list_elem_of_In.
       rewrite Forall_forall in Hne. apply Hne in Hn. by destruct (String.eqb_spec n ""). }
  rewrite run_bind. pose proof (py_for_ok (filter (fun n => hidden n = false) files)
    (fun name => modify (fun l => l ++ [path_join top name])) acc ltac:(done)) as H1.
  destruct (py_for _ _ acc) as [[[]|e] s1]; [|done]. rewrite run_bind.
  pose proof (py_for_ok dirs (fun name => modify (fun l => l ++ [path_join top name])) s1
    ltac:(done)) as H2.
  destruct (py_for _ _ s1) as [[[]|e] s2]; [|done]. case_bool_decide; eauto.
Qed.

Lemma walk_ok fuel top acc : fs_wf fs -> (walk fs maxd fuel top acc).1 = Ok ().
Proof.
  intros Hwf. revert top acc. induction fuel as [|fuel IH]; intros top acc; [done|].
  cbn [walk]. unfold os_scandir. destruct (fs !! top) as [[st|st names]|] eqn:Htop; [done| |done].
  rewrite run_bind.
  destruct (analyze_body_ok top (filter (fun n => entry_is_dir fs top n = true) names)
              (filter (fun n => entry_is_dir fs top n = false) names) acc) as [dirs' Hd].
  { apply Forall_forall. intros n Hn%list_elem_of_filter.
    destruct (fs_wf_name fs top st names n Hwf Htop (proj2 Hn)) as [[Hne _] _]. done. }
  destruct (analyze_body _ _ _ _ _) as [[d|e] s1]; simpl in Hd; [|done]. injection Hd as ->.
  apply py_for_ok. intros d s _. apply IH.
Qed.
End Listed.

Lemma ends_with_sep_path_join a n : name_ok n -> ends_with_sep (path_join a n) = false.
Proof.
  intros Hn. rewrite path_join_name by done. destruct (_ || _); [by apply ends_with_sep_name|].
  change (String "/"%char n) with (String "/"%char EmptyString +:+ n).
  rewrite <- append_assoc_str. by apply ends_with_sep_name.
Qed.

(** ** Fuel *)

Section Fuel.
Context (fs : tree_fs) (maxd : Z).

(** One level of [walk] with two fuels agrees when the recursive calls do. *)
Lemma walk_step_congr f g p acc :
  (forall st names d s, fs !! p = Some (NDir st names) -> d ∈ names ->
     (Z.of_nat (str_count "/"%char p) < maxd)%Z ->
     walk fs maxd f (path_join p d) s = walk fs maxd g (path_join p d) s) ->
  walk fs maxd (S f) p acc = walk fs maxd (S g) p acc.
Proof.
  intros Hsub. cbn [walk]. unfold os_scandir.
  destruct (fs !! p) as [[st|st names]|] eqn:Hp; [done| |done].
  rewrite !run_bind. pose proof (analyze_body_result maxd p
    (filter (fun n => entry_is_dir fs p n = true) names)
    (filter (fun n => entry_is_dir fs p n = false) names) acc) as Hres.
  destruct (analyze_body _ _ _ _ _) as [[dirs'|e] s1]; [|done].
  destruct (Hres dirs' s1 eq_refl) as [->|[-> Hlt]]; [done|].
  apply py_for_ext. intros d s [_ Hd]%list_elem_of_filter. by apply (Hsub st names).
Qed.

Lemma walk_fuel_indep_sub p f g acc :
  fs_wf fs -> p <> "" -> ends_with_sep p = false ->
  Z.to_nat (maxd - Z.of_nat (str_count "/"%char p)) + 1 <= f ->
  Z.to_nat (maxd - Z.of_nat (str_count "/"%char p)) + 1 <= g ->
  walk fs maxd f p acc = walk fs maxd g p acc.
Proof.
  intros Hwf. revert p g acc. induction f as [|f IH]; intros p g acc Hne Hend Hf Hg; [lia|].
  destruct g as [|g]; [lia|]. apply walk_step_congr.
  intros st names d s Hp Hd Hlt. destruct (fs_wf_name fs p st names d Hwf Hp Hd) as [Hn _].
  pose proof (str_count_path_join p d Hn) as Hc.
  rewrite Hend, orb_false_r in Hc. destruct (String.eqb_spec p "") as [|_]; [done|].
  apply IH; [by apply path_join_nonempty|by apply ends_with_sep_path_join|lia|lia].
Qed.

Lemma walk_fuel_indep root f g acc :
  fs_wf fs -> walk_fuel maxd <= f -> walk_fuel maxd <= g ->
  walk fs maxd f root acc = walk fs maxd g root acc.
Proof.
  unfold walk_fuel. intros Hwf Hf Hg. destruct f as [|f]; [lia|]. destruct g as [|g]; [lia|].
  apply walk_step_congr. intros st names d s Hp Hd Hlt.
  destruct (fs_wf_name fs root st names d Hwf Hp Hd) as [Hn _].
  pose proof (str_count_path_join root d Hn).
  apply walk_fuel_indep_sub; [done|by apply path_join_nonempty|by apply ends_with_sep_path_join|lia|lia].
Qed.
End Fuel.

(** ** Completeness: every path of [emitted] is listed *)

Lemma run_analyze_body maxd top dirs files acc :
  Forall (fun n => n <> "") files ->
  analyze_body maxd top dirs files acc =
    (Ok (if bool_decide (maxd <= Z.of_nat (str_count "/"%char top))%Z then [] else dirs),
     acc ++ (path_join top <$> filter (fun n => hidden n = false) files) ++ (path_join top <$> dirs)).
Proof.
  intros Hne. unfold analyze_body. rewrite run_bind, run_filter_hidden.
  replace (forallb _ files) with true; cbn beta iota.
  2: { symmetry. apply forallb_forall. intros n Hn%list_elem_of_In.
       rewrite Forall_forall in Hne. apply Hne in Hn. by destruct (String.eqb_spec n ""). }
  rewrite run_bind, run_py_for_snoc, run_bind, run_py_for_snoc, <- app_assoc.
  by case_bool_decide.
Qed.

Section Complete.
Context (fs : tree_fs) (maxd : Z) (Hwf : fs_wf fs).

Lemma run_walk_dir fuel top st names acc :
  fs !! top = Some (NDir st names) ->
  walk fs maxd (S fuel) top acc =
    py_for (if bool_decide (maxd <= Z.of_nat (str_count "/"%char top))%Z then []
            else filter (fun n => entry_is_dir fs top n = true) names)
      (fun d => walk fs maxd fuel (path_join top d))
      (acc ++ (path_join top <$> filter (fun n => hidden n = false)
                 (filter (fun n => entry_is_dir fs top n = false) names))
           ++ (path_join top <$> filter (fun n => entry_is_dir fs top n = true) names)).
Proof.
  intros Htop. cbn [walk]. unfold os_scandir. rewrite Htop, run_bind, run_analyze_body; [done|].
  apply Forall_forall. intros n [_ Hn]%list_elem_of_filter.
  by destruct (fs_wf_name fs top st names n Hwf Htop Hn) as [[? _] _].
Qed.

Lemma walk_prefix fuel top acc : acc `prefix_of` (walk fs maxd fuel top acc).2.
Proof.
  revert top acc. induction fuel as [|fuel IH]; intros top acc; [done|].
  destruct (fs !! top) as [[st|st names]|] eqn:Htop;
    [cbn [walk]; unfold os_scandir; by rewrite Htop| |cbn [walk]; unfold os_scandir; by rewrite Htop].
  rewrite (run_walk_dir fuel top st names) by done.
  etrans; [|apply py_for_prefix; intros; apply IH]. by apply prefix_app_r.
Qed.

(** The entries of a directory are listed by the first level of [walk] on it. *)
Lemma walk_entry_listed fuel top st names n acc :
  fs !! top = Some (NDir st names) -> n ∈ names ->
  (entry_is_dir fs top n = false -> hidden n = false) ->
  path_join top n ∈ (walk fs maxd (S fuel) top acc).2.
Proof.
  intros Htop Hn Hh. rewrite (run_walk_dir fuel top st names) by done.
  eapply elem_of_prefix; [|apply py_for_prefix; intros; apply walk_prefix].
  rewrite !elem_of_app. right. destruct (entry_is_dir fs top n) eqn:Hdir.
  - right. apply list_elem_of_fmap_2. by apply list_elem_of_filter.
  - left. apply list_elem_of_fmap_2, list_elem_of_filter. split; [by apply Hh|].
    by apply list_elem_of_filter.
Qed.

(** Below the maximum, what the walk of a subdirectory lists from any
    state is listed by the walk of its parent. *)
Lemma walk_sub_listed fuel top st names d p acc :
  fs !! top = Some (NDir st names) -> d ∈ names -> entry_is_dir fs top d = true ->
  (Z.of_nat (str_count "/"%char top) < maxd)%Z ->
  (forall s, p ∈ (walk fs maxd fuel (path_join top d) s).2) ->
  p ∈ (walk fs maxd (S fuel) top acc).2.
Proof.
  intros Htop Hd Hdir Hlt Hsub. rewrite (run_walk_dir fuel top st names) by done.
  rewrite bool_decide_false by lia.
  apply (py_for_mem _ _ d); [intros; by apply walk_ok|intros; apply walk_prefix| |done].
  by apply list_elem_of_filter.
Qed.

Lemma walk_complete_sub top p :
  emitted fs maxd top p -> top <> "" -> ends_with_sep top = false ->
  forall fuel acc, Z.to_nat (maxd - Z.of_nat (str_count "/"%char top)) + 1 <= fuel ->
  p ∈ (walk fs maxd fuel top acc).2.
Proof.
  induction 1 as [top st names n Htop Hn Hh|top st names d p Htop Hd Hdir Hlt Hem IH];
    intros Hne Hend [|fuel] acc Hf; try lia.
  - by eapply walk_entry_listed.
  - eapply walk_sub_listed; [done..|]. intros s.
    destruct (fs_wf_name fs top st names d Hwf Htop Hd) as [Hn _].
    pose proof (str_count_path_join top d Hn) as Hc.
    rewrite Hend, orb_false_r in Hc. destruct (String.eqb_spec top "") as [|_]; [done|].
    apply IH; [by apply path_join_nonempty|by apply ends_with_sep_path_join|lia].
Qed.

Lemma walk_complete root p acc :
  emitted fs maxd root p -> p ∈ (walk fs maxd (walk_fuel maxd) root acc).2.
Proof.
  unfold walk_fuel. rewrite Nat.add_succ_r.
  destruct 1 as [top st names n Htop Hn Hh|top st names d p Htop Hd Hdir Hlt Hem].
  - by eapply walk_entry_listed.
  - eapply walk_sub_listed; [done..|]. intros s.
    destruct (fs_wf_name fs top st names d Hwf Htop Hd) as [Hn _].
    pose proof (str_count_path_join top d Hn).
    apply walk_complete_sub; [done|by apply path_join_nonempty|by apply ends_with_sep_path_join|lia].
Qed.
End Complete.

Lemma folder_analyze_Ok fs root maxd :
  fs_wf fs -> folder_analyze fs root maxd = Ok (walk fs maxd (walk_fuel maxd) root []).2.
Proof.
  intros Hwf. unfold folder_analyze. pose proof (walk_ok fs maxd (walk_fuel maxd) root [] Hwf) as Hok.
  by destruct (walk _ _ _ _ _) as [[[]|e] s].
Qed.

(** ** The listing has no duplicates *)

(** The prefix [posixpath.join] puts before a name. *)
Definition dir_prefix (a : string) : string :=
  if String.eqb a "" || ends_with_sep a then a else a +:+ String "/"%char EmptyString.

Lemma path_join_prefix a n : name_ok n -> path_join a n = dir_prefix a +:+ n.
Proof.
  intros Hn. rewrite path_join_name by done. unfold dir_prefix.
  destruct (_ || _); [done|]. by rewrite append_assoc_str.
Qed.

Lemma append_cancel_l (t x y : string) : t +:+ x = t +:+ y -> x = y.
Proof. induction t as [|c t IH]; [done|]. rewrite !append_cons. intros [= ?]. by apply IH. Qed.

(** Two paths that start with a name and a separator start with the same name. *)
Lemma split_sep_inj a b x y :
  str_count "/"%char a = 0 -> str_count "/"%char b = 0 ->
  a +:+ String "/"%char x = b +:+ String "/"%char y -> a = b.
Proof.
  revert b. induction a as [|c a IH]; intros [|c' b] Ha Hb; rewrite ?append_empty_l, ?append_cons;
    intros E; [done| | |].
  - injection E as <- _. cbn [str_count] in Hb. rewrite Ascii.eqb_refl in Hb. cbn in Hb. lia.
  - injection E as -> _. cbn [str_count] in Ha. rewrite Ascii.eqb_refl in Ha. cbn in Ha. lia.
  - injection E as <- E. cbn [str_count] in Ha, Hb. f_equal. apply IH; [lia|lia|done].
Qed.

Lemma name_not_below n d r : name_ok n -> n <> d +:+ String "/"%char r.
Proof.
  intros [_ Hc] ->. rewrite str_count_app in Hc. cbn [str_count] in Hc.
  rewrite Ascii.eqb_refl in Hc. cbn in Hc. lia.
Qed.

Section NoDupScan.
Context (fs : tree_fs) (maxd : Z) (Hwf : fs_wf fs).

(** Everything listed from a directory [c] that is not the root lies below [c]. *)
Lemma emitted_below c p :
  c <> "" -> ends_with_sep c = false -> emitted fs maxd c p ->
  exists r, p = c +:+ String "/"%char r.
Proof.
  intros Hne Hend Hem. revert Hne Hend.
  induction Hem as [top st names n Htop Hn _|top st names d p Htop Hd _ _ _ IH]; intros Hne Hend.
  - destruct (fs_wf_name fs top st names n Hwf Htop Hn) as [Hnm _].
    rewrite path_join_name, Hend, orb_false_r by done.
    destruct (String.eqb_spec top "") as [|_]; [done|]. by exists n.
  - destruct (fs_wf_name fs top st names d Hwf Htop Hd) as [Hnm _].
    destruct IH as [r ->]; [by apply path_join_nonempty|by apply ends_with_sep_path_join|].
    rewrite path_join_name, Hend, orb_false_r by done.
    destruct (String.eqb_spec top "") as [|_]; [done|].
    exists (d +:+ String "/"%char r). by rewrite append_assoc_str, append_cons.
Qed.

Lemma walk_app fuel top acc :
  walk fs maxd fuel top acc = (Ok (), acc ++ (walk fs maxd fuel top []).2).
Proof.
  revert top acc. induction fuel as [|fuel IH]; intros top acc; [by rewrite app_nil_r|].
  destruct (fs !! top) as [[st|st names]|] eqn:Htop;
    [cbn [walk]; unfold os_scandir; rewrite Htop; by rewrite app_nil_r| |
     cbn [walk]; unfold os_scandir; rewrite Htop; by rewrite app_nil_r].
  rewrite !(run_walk_dir fs maxd Hwf fuel top st names) by done.
  rewrite !run_py_for_join by (intros; apply IH). simpl. by rewrite <- !app_assoc.
Qed.

(** What the walk of a subdirectory [d] of [top] lists starts with the
    joined path of [d] and a separator. *)
Lemma walk_sub_below fuel top st names d z :
  fs !! top = Some (NDir st names) -> d ∈ names ->
  z ∈ (walk fs maxd fuel (path_join top d) []).2 ->
  exists r, z = dir_prefix top +:+ (d +:+ String "/"%char r).
Proof.
  intros Htop Hd Hz. destruct (fs_wf_name fs top st names d Hwf Htop Hd) as [Hnm _].
  destruct (walk_emitted fs maxd fuel _ [] z Hz) as [?%elem_of_nil|Hem]; [done|].
  destruct (emitted_below (path_join top d) z) as [r ->];
    [by apply path_join_nonempty|by apply ends_with_sep_path_join|done|].
  exists r. by rewrite path_join_prefix, append_assoc_str by done.
Qed.

(** The entries [walk] lists for a directory: distinct, and each the
    directory's prefix followed by a name. *)
Lemma entries_spec top st names :
  fs !! top = Some (NDir st names) ->
  let E := path_join top <$> (filter (fun n => hidden n = false)
             (filter (fun n => entry_is_dir fs top n = false) names)
           ++ filter (fun n => entry_is_dir fs top n = true) names) in
  NoDup E /\ forall z, z ∈ E -> exists n, name_ok n /\ z = dir_prefix top +:+ n.
Proof.
  intros Htop E. destruct (fs_wf_dir fs top st names Hwf Htop) as [Hnd _].
  assert (Hsub : forall n, n ∈ filter (fun n => hidden n = false)
             (filter (fun n => entry_is_dir fs top n = false) names)
           ++ filter (fun n => entry_is_dir fs top n = true) names -> name_ok n).
  { intros n Hn. rewrite elem_of_app, !list_elem_of_filter in Hn.
    apply (fs_wf_name fs top st names n Hwf Htop). by destruct Hn as [(_ & _ & ?)|(_ & ?)]. }
  split.
  - apply NoDup_fmap_2_strong.
    + intros x y Hx Hy. rewrite !path_join_prefix by auto. apply append_cancel_l.
    + apply NoDup_app. split_and!; [by apply NoDup_filter, NoDup_filter| |by apply NoDup_filter].
      intros x Hx1 Hx2. apply list_elem_of_filter in Hx1 as [_ Hx1], Hx2 as [Hx2 _].
      apply list_elem_of_filter in Hx1 as [Hx1 _]. congruence.
  - intros z (n & -> & Hn)%list_elem_of_fmap. exists n. split; [auto|]. by apply path_join_prefix, Hsub.
Qed.

Lemma walk_nodup fuel top : NoDup (walk fs maxd fuel top []).2.
Proof.
  revert top. induction fuel as [|fuel IH]; intros top; [constructor|].
  destruct (fs !! top) as [[st|st names]|] eqn:Htop;
    [cbn [walk]; unfold os_scandir; rewrite Htop; constructor| |
     cbn [walk]; unfold os_scandir; rewrite Htop; constructor].
  rewrite (run_walk_dir fs maxd Hwf fuel top st names) by done.
  rewrite run_py_for_join by (intros; apply walk_app). simpl.
  destruct (entries_spec top st names Htop) as [HE Hform]. rewrite <- fmap_app.
  set (D := filter (fun n => entry_is_dir fs top n = true) names).
  assert (HD : NoDup D /\ forall d, d ∈ D -> d ∈ names).
  { destruct (fs_wf_dir fs top st names Hwf Htop) as [Hnd _].
    split; [by apply NoDup_filter|]. intros d Hd%list_elem_of_filter. apply Hd. }
  assert (HD' : NoDup (if bool_decide (maxd <= Z.of_nat (str_count "/"%char top))%Z then [] else D) /\
                forall d, d ∈ (if bool_decide (maxd <= Z.of_nat (str_count "/"%char top))%Z then [] else D) -> d ∈ names).
  { case_bool_decide; [split; [constructor|intros d ?%elem_of_nil; done]|done]. }
  destruct HD' as [HDnd HDin]. apply NoDup_app. split_and!; [done| |].
  - intros z Hz (l & Hzl & Hl)%list_elem_of_join. apply list_elem_of_fmap in Hl as (d & -> & Hd).
    destruct (walk_sub_below fuel top st names d z Htop (HDin d Hd) Hzl) as [r ->].
    destruct (Hform _ Hz) as (n & Hn & E). apply append_cancel_l in E.
    by apply (name_not_below n d r).
  - apply NoDup_join_fmap; [done|intros; apply IH|].
    intros d1 d2 z Hd1 Hd2 Hz1 Hz2.
    destruct (walk_sub_below fuel top st names d1 z Htop (HDin d1 Hd1) Hz1) as [r1 ->].
    destruct (walk_sub_below fuel top st names d2 _ Htop (HDin d2 Hd2) Hz2) as [r2 E].
    apply append_cancel_l in E.
    destruct (fs_wf_name fs top st names d1 Hwf Htop (HDin d1 Hd1)) as [[_ H1] _].
    destruct (fs_wf_name fs top st names d2 Hwf Htop (HDin d2 Hd2)) as [[_ H2] _].
    by apply (split_sep_inj d1 d2 r1 r2).
Qed.
End NoDupScan.

Lemma walk_statable fs maxd fuel root :
  fs_wf fs -> statable fs (walk fs maxd fuel root []).2.
Proof.
  intros Hwf. apply Forall_forall. intros p Hp.
  destruct (walk_emitted fs maxd _ root [] p Hp) as [?%elem_of_nil|Hem]; [done|].
  destruct (emitted_statable fs maxd root p Hwf Hem) as [nd Hnd].
  unfold os_stat_of, tree_fs_os. rewrite Hnd. by eexists.
Qed.

(** ** Entries of one directory *)

(** The two rules of [emitted], as an inversion lemma. *)
Lemma emitted_inv fs maxd top p :
  emitted fs maxd top p <->
  (exists st names n, fs !! top = Some (NDir st names) /\ n ∈ names /\
     (entry_is_dir fs top n = false -> hidden n = false) /\ p = path_join top n) \/
  (exists st names d, fs !! top = Some (NDir st names) /\ d ∈ names /\
     entry_is_dir fs top d = true /\ (Z.of_nat (str_count "/"%char top) < maxd)%Z /\
     emitted fs maxd (path_join top d) p).
Proof.
  split; [destruct 1; [left|right]; eauto 10|].
  intros [(st & names & n & ? & ? & ? & ->)|(st & names & d & ? & ? & ? & ? & ?)];
    [eapply em_entry|eapply em_sub]; eauto.
Qed.

Section RootEntries.
Context (fs : tree_fs) (maxd : Z) (Hwf : fs_wf fs).

Lemma folder_analyze_iff root l p :
  folder_analyze fs root maxd = Ok l -> (p ∈ l <-> emitted fs maxd root p).
Proof.
  rewrite folder_analyze_Ok by done. intros [= <-]. split.
  - intros Hp. by destruct (walk_emitted fs maxd _ root [] p Hp) as [?%elem_of_nil|].
  - by apply walk_complete.
Qed.

(** The joined path of an entry [n] of [top] is listed from [top] only by
    the first rule: everything listed from a subdirectory lies below it. *)
Lemma emitted_own_entry top st names n :
  fs !! top = Some (NDir st names) -> n ∈ names ->
  emitted fs maxd top (path_join top n) <->
  (entry_is_dir fs top n = false -> hidden n = false).
Proof.
  intros Htop Hn. destruct (fs_wf_name fs top st names n Hwf Htop Hn) as [Hnm _].
  split; [|intros Hh; by eapply em_entry].
  rewrite emitted_inv. intros [(st' & names' & n' & Htop' & Hn' & Hh & E)|
                              (st' & names' & d & Htop' & Hd & _ & _ & Hsub)];
    rewrite Htop in Htop'; injection Htop' as <- <-.
  - destruct (fs_wf_name fs top st names n' Hwf Htop Hn') as [Hnm' _].
    rewrite !path_join_prefix in E by done. by apply append_cancel_l in E as ->.
  - exfalso. destruct (fs_wf_name fs top st names d Hwf Htop Hd) as [Hnd _].
    destruct (emitted_below fs maxd Hwf (path_join top d) (path_join top n)) as [r Hr];
      [by apply path_join_nonempty|by apply ends_with_sep_path_join|done|].
    rewrite !path_join_prefix, append_assoc_str in Hr by done. apply append_cancel_l in Hr.
    by apply (name_not_below n d r).
Qed.

(** When [top] has as many separators as the maximum, nothing below its
    subdirectories is listed from it. *)
Lemma emitted_at_max top st names p :
  fs !! top = Some (NDir st names) -> (maxd <= Z.of_nat (str_count "/"%char top))%Z ->
  emitted fs maxd top p <->
  exists n, n ∈ names /\ (entry_is_dir fs top n = false -> hidden n = false) /\ p = path_join top n.
Proof.
  intros Htop Hmax. rewrite emitted_inv. split.
  - intros [(st' & names' & n & Htop' & ?)|(_ & _ & _ & _ & _ & _ & Hlt & _)]; [|lia].
    rewrite Htop in Htop'. injection Htop' as <- <-. eauto.
  - intros (n & ? & ? & ?). left. eauto 10.
Qed.
End RootEntries.

(** ** Properties of [folder_analyze] *)

Section Scanner.
Context (fs : tree_fs) (root : string) (maxd : Z) (Hwf : fs_wf fs).

(** C14: On a well-formed file system, [folder_analyze] returns normally,
    and lists exactly the paths of [emitted]: each entry of the root, a
    hidden file excepted, and, while the separator count of a directory
    is below the maximum, what is listed from each of its subdirectories. *)
Theorem folder_analyze_spec :
  exists l, folder_analyze fs root maxd = Ok l /\ forall p, p ∈ l <-> emitted fs maxd root p.
Proof.
  eexists. split; [by apply folder_analyze_Ok|]. intros p.
  by apply (folder_analyze_iff fs maxd Hwf root), folder_analyze_Ok.
Qed.

(** C15: Every path [folder_analyze] lists can be [os.stat]'ed at the
    time of the scan: the scan meets the hypothesis of [compare] that
    every scanned path is stat-able. *)
Theorem folder_analyze_statable l :
  folder_analyze fs root maxd = Ok l -> statable fs l.
Proof.
  rewrite folder_analyze_Ok by done. intros [= <-]. by apply walk_statable.
Qed.

(** C16: [folder_analyze] lists no path twice on a well-formed file
    system: the scan meets the hypothesis of the first crawl
    [add_list(files, True)] that the paths are distinct. *)
Theorem folder_analyze_nodup l :
  folder_analyze fs root maxd = Ok l -> NoDup l.
Proof. rewrite folder_analyze_Ok by done. intros [= <-]. by apply walk_nodup. Qed.

(** C17: The depth of the listing is bounded: a listed path has at most
    one separator more than the larger of the root's separator count and
    the maximum. *)
Theorem folder_analyze_depth l p :
  folder_analyze fs root maxd = Ok l -> p ∈ l ->
  (Z.of_nat (str_count "/"%char p) <= Z.max (Z.of_nat (str_count "/"%char root)) maxd + 1)%Z.
Proof.
  rewrite folder_analyze_Ok by done. intros [= <-] Hp.
  destruct (walk_emitted fs maxd _ root [] p Hp) as [?%elem_of_nil|Hem]; [done|].
  by apply (emitted_depth fs maxd root p Hwf Hem).
Qed.

(** C18: The filter of line 185 applies to files only: an entry [n] of
    the root is listed exactly when it is a directory or its name does
    not start with ["."]; hidden files are dropped, hidden directories
    are listed (and walked, by C14). *)
Theorem folder_analyze_hidden l st names n :
  folder_analyze fs root maxd = Ok l -> fs !! root = Some (NDir st names) -> n ∈ names ->
  (path_join root n ∈ l <-> entry_is_dir fs root n = true \/ hidden n = false).
Proof.
  intros Hl Htop Hn. rewrite (folder_analyze_iff fs maxd Hwf root l _ Hl).
  rewrite (emitted_own_entry fs maxd Hwf root st names n Htop Hn).
  destruct (entry_is_dir fs root n), (hidden n); intuition congruence.
Qed.

(** C20: The depth test of line 194 counts the separators of the
    absolute path, not the depth below the root as the spec's scanner
    interface says: from a root with at least [subfolders_max_number]
    separators the scan lists the root's entries (hidden files excepted)
    and nothing below them, although the root itself is at depth 0. *)
Theorem folder_analyze_absolute_depth l st names p :
  folder_analyze fs root maxd = Ok l -> fs !! root = Some (NDir st names) ->
  (maxd <= Z.of_nat (str_count "/"%char root))%Z ->
  (p ∈ l <-> exists n, n ∈ names /\ (entry_is_dir fs root n = false -> hidden n = false) /\
                        p = path_join root n).
Proof.
  intros Hl Htop Hmax. rewrite (folder_analyze_iff fs maxd Hwf root l _ Hl).
  exact (emitted_at_max fs maxd root st names p Htop Hmax).
Qed.

(** C19: [walk_fuel] is enough: on a well-formed file system, any larger
    fuel gives the same run, so [folder_analyze] is the unbounded
    [os.walk] loop. *)
Theorem walk_fuel_enough fuel acc :
  walk_fuel maxd <= fuel ->
  walk fs maxd fuel root acc = walk fs maxd (walk_fuel maxd) root acc.
Proof. intros Hf. by apply walk_fuel_indep. Qed.
End Scanner.

(** ** Concrete file systems *)

(** /r holds the files a.txt and .env and the directories .git and d. *)
Definition fs_ex : tree_fs :=
  list_to_map [("/r", NDir (st_of 1 1) [".git"; "d"; "a.txt"; ".env"]);
               ("/r/.git", NDir (st_of 2 2) ["config"]);
               ("/r/.git/config", NFile (st_of 3 3));
               ("/r/d", NDir (st_of 4 4) ["b.txt"]);
               ("/r/d/b.txt", NFile (st_of 5 5));
               ("/r/a.txt", NFile (st_of 6 6));
               ("/r/.env", NFile (st_of 7 7))].

(** A tree five separators deep: /r/a/b/c/d/x/f. *)
Definition fs_deep : tree_fs :=
  list_to_map [("/r/a/b/c/d", NDir (st_of 1 1) ["x"]);
               ("/r/a/b/c/d/x", NDir (st_of 2 2) ["f"]);
               ("/r/a/b/c/d/x/f", NFile (st_of 3 3))].

Lemma folder_analyze_spec_witness :
  fs_wf fs_ex /\ exists l, folder_analyze fs_ex "/r" 5 = Ok l /\
    forall p, p ∈ l <-> emitted fs_ex 5 "/r" p.
Proof.
  assert (Hwf : fs_wf fs_ex) by by_compute.
  split; [exact Hwf|exact (folder_analyze_spec fs_ex "/r" 5 Hwf)].
Defined.

Lemma folder_analyze_statable_witness :
  fs_wf fs_ex /\ folder_analyze fs_ex "/r" 5 =
    Ok ["/r/a.txt"; "/r/.git"; "/r/d"; "/r/.git/config"; "/r/d/b.txt"] /\
  statable fs_ex ["/r/a.txt"; "/r/.git"; "/r/d"; "/r/.git/config"; "/r/d/b.txt"].
Proof.
  assert (Hwf : fs_wf fs_ex) by by_compute.
  assert (Hl : folder_analyze fs_ex "/r" 5 =
    Ok ["/r/a.txt"; "/r/.git"; "/r/d"; "/r/.git/config"; "/r/d/b.txt"]) by (vm_compute; reflexivity).
  split; [exact Hwf|]. split; [exact Hl|]. exact (folder_analyze_statable fs_ex "/r" 5 Hwf _ Hl).
Defined.

Lemma folder_analyze_depth_witness :
  fs_wf fs_deep /\ folder_analyze fs_deep "/r/a/b/c/d" 5 = Ok ["/r/a/b/c/d/x"] /\
  "/r/a/b/c/d/x" ∈ ["/r/a/b/c/d/x"] /\
  (Z.of_nat (str_count "/"%char "/r/a/b/c/d/x") <=
     Z.max (Z.of_nat (str_count "/"%char "/r/a/b/c/d")) 5 + 1)%Z.
Proof.
  assert (Hwf : fs_wf fs_deep) by by_compute.
  assert (Hl : folder_analyze fs_deep "/r/a/b/c/d" 5 = Ok ["/r/a/b/c/d/x"]) by (vm_compute; reflexivity).
  assert (Hp : "/r/a/b/c/d/x" ∈ ["/r/a/b/c/d/x"]) by by_compute.
  split; [exact Hwf|]. split; [exact Hl|]. split; [exact Hp|].
  exact (folder_analyze_depth fs_deep "/r/a/b/c/d" 5 Hwf _ _ Hl Hp).
Defined.

Lemma folder_analyze_hidden_witness :
  fs_wf fs_ex /\
  folder_analyze fs_ex "/r" 5 = Ok ["/r/a.txt"; "/r/.git"; "/r/d"; "/r/.git/config"; "/r/d/b.txt"] /\
  fs_ex !! "/r" = Some (NDir (st_of 1 1) [".git"; "d"; "a.txt"; ".env"]) /\
  ".git" ∈ [".git"; "d"; "a.txt"; ".env"] /\
  (path_join "/r" ".git" ∈ ["/r/a.txt"; "/r/.git"; "/r/d"; "/r/.git/config"; "/r/d/b.txt"] <->
   entry_is_dir fs_ex "/r" ".git" = true \/ hidden ".git" = false).
Proof.
  assert (Hwf : fs_wf fs_ex) by by_compute.
  assert (Hl : folder_analyze fs_ex "/r" 5 =
    Ok ["/r/a.txt"; "/r/.git"; "/r/d"; "/r/.git/config"; "/r/d/b.txt"]) by (vm_compute; reflexivity).
  assert (Ht : fs_ex !! "/r" = Some (NDir (st_of 1 1) [".git"; "d"; "a.txt"; ".env"]))
    by (vm_compute; reflexivity).
  assert (Hn : ".git" ∈ [".git"; "d"; "a.txt"; ".env"]) by by_compute.
  split; [exact Hwf|]. split; [exact Hl|]. split; [exact Ht|]. split; [exact Hn|].
  exact (folder_analyze_hidden fs_ex "/r" 5 Hwf _ _ _ _ Hl Ht Hn).
Defined.

Lemma folder_analyze_absolute_depth_witness :
  fs_wf fs_deep /\ folder_analyze fs_deep "/r/a/b/c/d" 5 = Ok ["/r/a/b/c/d/x"] /\
  fs_deep !! "/r/a/b/c/d" = Some (NDir (st_of 1 1) ["x"]) /\
  (5 <= Z.of_nat (str_count "/"%char "/r/a/b/c/d"))%Z /\
  ("/r/a/b/c/d/x" ∈ ["/r/a/b/c/d/x"] <->
   exists n, n ∈ ["x"] /\ (entry_is_dir fs_deep "/r/a/b/c/d" n = false -> hidden n = false) /\
             "/r/a/b/c/d/x" = path_join "/r/a/b/c/d" n).
Proof.
  assert (Hwf : fs_wf fs_deep) by by_compute.
  assert (Hl : folder_analyze fs_deep "/r/a/b/c/d" 5 = Ok ["/r/a/b/c/d/x"]) by (vm_compute; reflexivity).
  assert (Ht : fs_deep !! "/r/a/b/c/d" = Some (NDir (st_of 1 1) ["x"])) by (vm_compute; reflexivity).
  assert (Hm : (5 <= Z.of_nat (str_count "/"%char "/r/a/b/c/d"))%Z) by (vm_compute; discriminate).
  split; [exact Hwf|]. split; [exact Hl|]. split; [exact Ht|]. split; [exact Hm|].
  exact (folder_analyze_absolute_depth fs_deep "/r/a/b/c/d" 5 Hwf _ _ _ _ Hl Ht Hm).
Defined.

Lemma walk_fuel_enough_witness :
  fs_wf fs_ex /\ walk_fuel 5 <= 20 /\
  walk fs_ex 5 20 "/r" [] = walk fs_ex 5 (walk_fuel 5) "/r" [].
Proof.
  assert (Hwf : fs_wf fs_ex) by by_compute.
  assert (Hf : walk_fuel 5 <= 20) by (vm_compute; lia).
  split; [exact Hwf|]. split; [exact Hf|]. exact (walk_fuel_enough fs_ex "/r" 5 Hwf 20 [] Hf).
Defined.

Lemma folder_analyze_nodup_witness :
  fs_wf fs_ex /\ folder_analyze fs_ex "/r" 5 =
    Ok ["/r/a.txt"; "/r/.git"; "/r/d"; "/r/.git/config"; "/r/d/b.txt"] /\
  NoDup ["/r/a.txt"; "/r/.git"; "/r/d"; "/r/.git/config"; "/r/d/b.txt"].
Proof.
  assert (Hwf : fs_wf fs_ex) by by_compute.
  assert (Hl : folder_analyze fs_ex "/r" 5 =
    Ok ["/r/a.txt"; "/r/.git"; "/r/d"; "/r/.git/config"; "/r/d/b.txt"]) by (vm_compute; reflexivity).
  split; [exact Hwf|]. split; [exact Hl|]. exact (folder_analyze_nodup fs_ex "/r" 5 Hwf _ Hl).
Defined.
