(* ===== verification/Main.v ===== *)
(** * [main_function] and the prompts (Watch.py 147-170, 199-238)

    [main_function] parses the arguments, asks again on standard input
    for a log file or a folder that does not exist
    ([ask_log_file_location], [ask_folder_location]), clamps [-d] and
    [-f], crawls the folder once ([add_list(files, True)]) and then, for
    ever, sleeps and [compare]s a new scan.

    - Standard input is a list of lines, the state of the prompts;
      [input()] at its end raises [EOFError].  [os.path.exists] and the
      success of [open(path, 'a')] are parameters ([path_exists],
      [can_create]) of the sections [Prompts] and [CheckArgs].
    - The start-up ([main_start]) and one iteration of the loop
      ([main_poll]) are [PyM World] computations.  Each takes two file
      systems: the one [folder_analyze] walks and the one [os.stat] sees
      during [add_list] or [compare], since the tree may change between
      the scan and the stats.  [time.sleep] is the passing of time
      between two file systems.
    - The program as a whole is the step relation [main_step] on
      [main_state]: watching with the [FileList] and the class-level
      state, or stopped by an exception nothing catches.
      [reachable P a] is the set of states of runs whose file systems
      satisfy [P]; the invariants are proved by rule induction on it. *)

From stdpp Require Import base list gmap strings.
From Stdlib Require Import ZArith.
From S2P Require Import Prelude Logging File FileList Compare Walk.

(** ** Prompts *)

(** [input(prompt)]: the next line of standard input; the prompt is output. *)
Definition py_input : PyM (list string) string :=
  fun s => match s with [] => (Raise EOFError, []) | x :: s' => (Ok x, s') end.

Section Prompts.
Context (path_exists : string -> bool).

(** [while not os.path.exists(p): p = input(...)].  Each iteration reads
    a line or raises, so fuel one more than the lines left is enough. *)
Fixpoint ask_loop (fuel : nat) (p : string) : PyM (list string) string :=
  match fuel with
  | O => mret p
  | S fuel' => if path_exists p then mret p else (p' ← py_input; ask_loop fuel' p')
  end.

Definition ask_folder_location : PyM (list string) string :=
  fun inputs => (local_folder ← py_input; ask_loop (S (length inputs)) local_folder) inputs.

Definition ask_log_file_location : PyM (list string) string :=
  fun inputs => (log_file_location ← py_input; ask_loop (S (length inputs)) log_file_location) inputs.

End Prompts.

(** ** Arguments *)

(** The attributes of [args] after [parser.parse_args()]. *)
Record Args := mkArgs {
  folder_location : string;
  log_file_location : string;
  new_log_file : bool;
  debug : bool;
  depth : Z;
  frequency : Z
}.

Definition set_log_file_location (lf : string) (a : Args) : Args :=
  mkArgs (folder_location a) lf (new_log_file a) (debug a) (depth a) (frequency a).

Definition set_folder_location (fl : string) (a : Args) : Args :=
  mkArgs fl (log_file_location a) (new_log_file a) (debug a) (depth a) (frequency a).

(** [x in range(lo, hi)] for an int [x]. *)
Definition in_range (x lo hi : Z) : bool := bool_decide (lo <= x < hi)%Z.

(** Lines 230-231. *)
Definition clamp_depth (d : Z) : Z := if in_range d 0 11 then d else 5.
Definition clamp_frequency (f : Z) : Z := if in_range f 1 3601 then f else 15.

Definition clamp_args (a : Args) : Args :=
  mkArgs (folder_location a) (log_file_location a) (new_log_file a) (debug a)
         (clamp_depth (depth a)) (clamp_frequency (frequency a)).

Section CheckArgs.
Context (path_exists : string -> bool) (can_create : string -> bool).

(** Lines 216-225: the log file is created ([-n]) or must exist, else
    the user is asked for one.  [can_create lf] is whether
    [open(lf, 'a')] succeeds. *)
Definition check_log_file (a : Args) : PyM (list string) Args :=
  if new_log_file a then
    (if can_create (log_file_location a) then mret a
     else lf ← ask_log_file_location path_exists; mret (set_log_file_location lf a))
  else if path_exists (log_file_location a) then mret a
  else lf ← ask_log_file_location path_exists; mret (set_log_file_location lf a).

(** Lines 227-229: the folder must exist, else the user is asked for one. *)
Definition check_folder (a : Args) : PyM (list string) Args :=
  if path_exists (folder_location a) then mret a
  else fl ← ask_folder_location path_exists; mret (set_folder_location fl a).

(** Lines 216-231. *)
Definition check_args (a : Args) : PyM (list string) Args :=
  a1 ← check_log_file a;
  a2 ← check_folder a1;
  mret (clamp_args a2).
End CheckArgs.

(** ** Lemmas on the prompts and the arguments *)

Section PromptLemmas.
Context (path_exists : string -> bool).

Lemma ask_loop_spec fuel p inputs :
  length inputs < fuel ->
  ask_loop path_exists fuel p inputs =
    match list_find (fun x => path_exists x = true) (p :: inputs) with
    | Some (i, x) => (Ok x, drop i inputs)
    | None => (Raise EOFError, [])
    end.
Proof.
  revert p inputs. induction fuel as [|fuel IH]; intros p inputs Hf; [lia|].
  cbn [ask_loop list_find]. destruct (path_exists p) eqn:Hp.
  - by rewrite decide_True.
  - rewrite decide_False by congruence. rewrite run_bind. destruct inputs as [|x xs]; [done|].
    cbn [py_input]. rewrite IH by (simpl in Hf; lia).
    by destruct (list_find _ (x :: xs)) as [[i y]|].
Qed.

Lemma ask_path_spec fuel inputs :
  fuel = S (length inputs) ->
  (p ← py_input; ask_loop path_exists fuel p) inputs =
    match list_find (fun x => path_exists x = true) inputs with
    | Some (i, x) => (Ok x, drop (S i) inputs)
    | None => (Raise EOFError, [])
    end.
Proof.
  intros ->. rewrite run_bind. destruct inputs as [|x xs]; [done|]. cbn [py_input].
  rewrite ask_loop_spec by (simpl; lia). done.
Qed.
End PromptLemmas.

Section ArgLemmas.
Context (path_exists : string -> bool) (can_create : string -> bool).

Lemma ask_result inputs :
  match ((p ← py_input; ask_loop path_exists (S (length inputs)) p) inputs).1 with
  | Ok x => path_exists x = true
  | Raise e => e = EOFError
  end.
Proof.
  rewrite ask_path_spec by done. destruct (list_find _ inputs) as [[i x]|] eqn:E; [|done].
  by apply list_find_Some in E as (_ & ? & _).
Qed.

Lemma ask_all_exist inputs :
  Forall (fun x => path_exists x = true) inputs -> inputs <> [] ->
  exists x, (p ← py_input; ask_loop path_exists (S (length inputs)) p) inputs = (Ok x, tail inputs).
Proof.
  intros Hall Hne. rewrite ask_path_spec by done. destruct inputs as [|x xs]; [done|].
  apply Forall_cons in Hall as [Hx _]. exists x. cbn [list_find]. by rewrite decide_True.
Qed.

Lemma check_folder_result a1 s :
  match (check_folder path_exists a1 s).1 with
  | Ok a2 => path_exists (folder_location a2) = true /\
             log_file_location a2 = log_file_location a1 /\ new_log_file a2 = new_log_file a1 /\
             debug a2 = debug a1 /\ depth a2 = depth a1 /\ frequency a2 = frequency a1
  | Raise e => e = EOFError
  end.
Proof.
  unfold check_folder. destruct (path_exists (folder_location a1)) eqn:He; [done|].
  unfold ask_folder_location. rewrite run_bind. pose proof (ask_result s) as Hr.
  cbv beta. destruct ((py_input ≫= (fun p => ask_loop path_exists (S (length s)) p)) s) as [[x|e] s'];
    simpl in Hr |- *; [|done]. done.
Qed.

Lemma check_log_file_result a s :
  match (check_log_file path_exists can_create a s).1 with
  | Ok a1 => (path_exists (log_file_location a1) = true \/
              new_log_file a = true /\ can_create (log_file_location a1) = true) /\
             folder_location a1 = folder_location a /\ new_log_file a1 = new_log_file a /\
             debug a1 = debug a /\ depth a1 = depth a /\ frequency a1 = frequency a
  | Raise e => e = EOFError
  end.
Proof.
  unfold check_log_file, ask_log_file_location.
  destruct (new_log_file a) eqn:Hn; [destruct (can_create (log_file_location a)) eqn:Hc|
    destruct (path_exists (log_file_location a)) eqn:He]; try (simpl; tauto);
    rewrite run_bind; pose proof (ask_result s) as Hr;
    cbv beta;
    destruct ((py_input ≫= (fun p => ask_loop path_exists (S (length s)) p)) s) as [[x|e] s']; simpl in Hr |- *; tauto.
Qed.
Lemma check_log_file_returns a inputs :
  Forall (fun x => path_exists x = true) inputs -> inputs <> [] ->
  exists a1 s1, check_log_file path_exists can_create a inputs = (Ok a1, s1) /\
    Forall (fun x => path_exists x = true) s1 /\ length inputs <= S (length s1).
Proof.
  intros Hall Hne. destruct (ask_all_exist inputs Hall Hne) as [x Hx].
  assert (Ht : Forall (fun x => path_exists x = true) (tail inputs) /\
               length inputs <= S (length (tail inputs))).
  { destruct inputs as [|y ys]; [done|]. apply Forall_cons in Hall as [_ ?]. simpl. split; [done|lia]. }
  unfold check_log_file, ask_log_file_location.
  destruct (new_log_file a); [destruct (can_create (log_file_location a))|
    destruct (path_exists (log_file_location a))].
  all: try (eexists _, _; split; [reflexivity|split; [done|lia]]).
  all: 
    rewrite run_bind; cbv beta; rewrite Hx; eexists _, _; split; [reflexivity|done].
Qed.

Lemma check_folder_returns a1 inputs :
  Forall (fun x => path_exists x = true) inputs -> inputs <> [] ->
  exists a2 s2, check_folder path_exists a1 inputs = (Ok a2, s2).
Proof.
  intros Hall Hne. destruct (ask_all_exist inputs Hall Hne) as [x Hx].
  unfold check_folder, ask_folder_location. destruct (path_exists (folder_location a1)); [by eexists _, _|].
  rewrite run_bind. cbv beta. rewrite Hx. by eexists _, _.
Qed.
End ArgLemmas.

(** ** Properties of the prompts and the arguments *)

Section ArgProps.
Context (path_exists : string -> bool) (can_create : string -> bool).

(** C21: The prompt loops of lines 147-170 terminate: [ask_folder_location]
    and [ask_log_file_location] return the first line of standard input
    that names an existing path, having read the lines up to it, or raise
    [EOFError] when no line does, having read them all. *)
Theorem ask_location_spec inputs :
  ask_folder_location path_exists inputs =
    match list_find (fun x => path_exists x = true) inputs with
    | Some (i, x) => (Ok x, drop (S i) inputs)
    | None => (Raise EOFError, [])
    end /\
  ask_log_file_location path_exists inputs = ask_folder_location path_exists inputs.
Proof. split; [by apply ask_path_spec|done]. Qed.

(** C22: The validation of lines 216-231 either raises [EOFError] (the
    input ran out) or gives arguments whose folder exists, whose log file
    exists or was created with [-n], and whose depth and frequency are
    [-d] and [-f] clamped; and it returns when every line of the input
    names an existing path and there are at least two lines. *)
Theorem check_args_spec a inputs :
  match (check_args path_exists can_create a inputs).1 with
  | Ok a' => path_exists (folder_location a') = true /\
             (path_exists (log_file_location a') = true \/
              new_log_file a = true /\ can_create (log_file_location a') = true) /\
             debug a' = debug a /\ depth a' = clamp_depth (depth a) /\
             frequency a' = clamp_frequency (frequency a)
  | Raise e => e = EOFError
  end /\
  (Forall (fun x => path_exists x = true) inputs -> 2 <= length inputs ->
   exists a', (check_args path_exists can_create a inputs).1 = Ok a').
Proof.
  unfold check_args. split.
  - rewrite run_bind. pose proof (check_log_file_result path_exists can_create a inputs) as H1.
    destruct (check_log_file path_exists can_create a inputs) as [[a1|e] s1]; [|done].
    rewrite run_bind. pose proof (check_folder_result path_exists a1 s1) as H2.
    destruct (check_folder path_exists a1 s1) as [[a2|e] s2]; [|done]. simpl in *.
    destruct H1 as (Hl & _ & _ & Hd & Hdp & Hfr), H2 as (Hf2 & Hl2 & _ & Hd2 & Hdp2 & Hfr2).
    rewrite Hl2, Hd2, Hdp2, Hfr2, Hd, Hdp, Hfr. auto.
  - intros Hall Hlen.
    destruct (check_log_file_returns path_exists can_create a inputs Hall) as (a1 & s1 & E1 & Hs1 & Hl1);
      [intros ->; simpl in Hlen; lia|].
    destruct (check_folder_returns path_exists a1 s1 Hs1) as (a2 & s2 & E2); [intros ->; simpl in *; lia|].
    rewrite run_bind, E1, run_bind, E2. by eexists.
Qed.
End ArgProps.

(** C23: Lines 230-231 keep [-d] in [0, 10] and [-f] in [1, 3600]: a value
    in range is kept, any other is replaced by the default 5 or 15. *)
Theorem clamp_spec d f :
  (0 <= clamp_depth d <= 10)%Z /\ clamp_depth d = (if bool_decide (0 <= d <= 10)%Z then d else 5%Z) /\
  (1 <= clamp_frequency f <= 3600)%Z /\ clamp_frequency f = (if bool_decide (1 <= f <= 3600)%Z then f else 15%Z).
Proof.
  unfold clamp_depth, clamp_frequency, in_range.
  repeat case_bool_decide; split_and!; try lia; reflexivity.
Qed.

(** ** The start-up and the polling loop *)

(** An [outcome] of a call that does not touch the state, as a statement. *)
Definition py_of_outcome {S A} (o : outcome A) : PyM S A :=
  match o with Ok a => mret a | Raise e => mthrow e end.

(** Lines 234-235, after the arguments: [FileList(...)] and the first
    crawl.  [fs_scan] is walked, [fs_stat] answers [os.stat]. *)
Definition main_start (fs_scan fs_stat : tree_fs) (now : string) (a : Args) : PyM World FileList :=
  files ← FileList.init (debug a) (log_file_location a);
  scan ← py_of_outcome (folder_analyze fs_scan (folder_location a) (depth a));
  FileList.add_list fs_stat now files scan true ;;
  mret files.

(** One iteration of lines 236-238, after [time.sleep(args.frequency)]. *)
Definition main_poll (fs_scan fs_stat : tree_fs) (now : string) (a : Args) (files : FileList)
    : PyM World unit :=
  scan ← py_of_outcome (folder_analyze fs_scan (folder_location a) (depth a));
  FileList.compare fs_stat now files scan.

(** The program watching with its [FileList], or stopped by an exception. *)
Inductive main_state :=
  | Watching (files : FileList) (w : World)
  | Stopped (e : exn) (w : World).

Definition world_of (st : main_state) : World :=
  match st with Watching _ w | Stopped _ w => w end.

(** The class-level state when the process starts. *)
Definition empty_world : World := mkWorld [] 0 [].

Definition main_init (fs_scan fs_stat : tree_fs) (now : string) (a : Args) : main_state :=
  match main_start fs_scan fs_stat now a empty_world with
  | (Ok files, w) => Watching files w
  | (Raise e, w) => Stopped e w
  end.

Definition poll_state (files : FileList) (r : outcome unit * World) : main_state :=
  match r with
  | (Ok (), w) => Watching files w
  | (Raise e, w) => Stopped e w
  end.

Section Loop.
(** [P fs_scan fs_stat]: the file systems a run may meet at one step. *)
Context (P : tree_fs -> tree_fs -> Prop) (a : Args).

Inductive main_step : main_state -> main_state -> Prop :=
  | step_poll files w fs_scan fs_stat now :
      P fs_scan fs_stat ->
      main_step (Watching files w) (poll_state files (main_poll fs_scan fs_stat now a files w)).

Inductive reachable : main_state -> Prop :=
  | reach_init fs_scan fs_stat now :
      P fs_scan fs_stat -> reachable (main_init fs_scan fs_stat now a)
  | reach_step st st' : reachable st -> main_step st st' -> reachable st'.
End Loop.

(** ** Runs of the start-up and of one poll *)

Lemma run_py_of_outcome {S A} (o : outcome A) (s : S) : py_of_outcome o s = (o, s).
Proof. by destruct o. Qed.

Lemma world_of_poll_state files r : world_of (poll_state files r) = r.2.
Proof. by destruct r as [[[]|e] w]. Qed.

Lemma run_main_start fs_scan fs_stat now a w :
  main_start fs_scan fs_stat now a w =
    match folder_analyze fs_scan (folder_location a) (depth a) with
    | Ok l =>
        match FileList.add_list fs_stat now (mkFileList (debug a) (log_file_location a)) l true w with
        | (Ok (), w') => (Ok (mkFileList (debug a) (log_file_location a)), w')
        | (Raise e, w') => (Raise e, w')
        end
    | Raise e => (Raise e, w)
    end.
Proof.
  unfold main_start, FileList.init. rewrite run_bind, run_ret, run_bind, run_py_of_outcome.
  destruct (folder_analyze _ _ _) as [l|e]; [|done]. rewrite run_bind.
  by destruct (FileList.add_list _ _ _ _ _ _) as [[[]|e] w'].
Qed.

Lemma run_main_poll fs_scan fs_stat now a files w :
  main_poll fs_scan fs_stat now a files w =
    match folder_analyze fs_scan (folder_location a) (depth a) with
    | Ok l => FileList.compare fs_stat now files l w
    | Raise e => (Raise e, w)
    end.
Proof. unfold main_poll. rewrite run_bind, run_py_of_outcome. by destruct (folder_analyze _ _ _). Qed.

Lemma wf_empty_world : wf empty_world.
Proof. split; [split|]; constructor. Qed.

Lemma world_of_init fs_scan fs_stat now a :
  world_of (main_init fs_scan fs_stat now a) = (main_start fs_scan fs_stat now a empty_world).2.
Proof. unfold main_init. by destruct (main_start _ _ _ _ _) as [[f|e] w]. Qed.

(** The start-up on a well-formed scanned tree keeps the invariant,
    whatever [os.stat] answers. *)
Lemma main_init_wf fs_scan fs_stat now a :
  fs_wf fs_scan -> wf (world_of (main_init fs_scan fs_stat now a)).
Proof.
  intros Hwf. rewrite world_of_init, run_main_start, folder_analyze_Ok by done.
  pose proof (add_list_wf_log fs_stat now (mkFileList (debug a) (log_file_location a)) []
    (walk fs_scan (depth a) (walk_fuel (depth a)) (folder_location a) []).2 true empty_world
    (conj wf_empty_world (prefix_nil _)) (walk_nodup fs_scan (depth a) Hwf _ _)
    ltac:(intros q _; apply not_elem_of_nil)) as [Hw _].
  by destruct (FileList.add_list _ _ _ _ _ _) as [[[]|e] w'].
Qed.

(** A poll keeps the invariant and only appends to the log, whatever the
    file systems and the outcome. *)
Lemma main_poll_wf_log fs_scan fs_stat now a files w :
  wf w -> wf_log (records w) (main_poll fs_scan fs_stat now a files w).2.
Proof.
  intros Hw. rewrite run_main_poll. destruct (folder_analyze _ _ _) as [l|e]; [|done].
  by apply compare_wf_log.
Qed.

Lemma main_step_wf_log P a st st' :
  main_step P a st st' -> wf (world_of st) -> wf_log (records (world_of st)) (world_of st').
Proof. intros [files w fs_scan fs_stat now _] Hw. rewrite world_of_poll_state. by apply main_poll_wf_log. Qed.

Lemma reachable_wf a st :
  reachable (fun fs_scan _ => fs_wf fs_scan) a st -> wf (world_of st).
Proof.
  induction 1 as [fs_scan fs_stat now Hwf|st st' _ IH Hstep]; [by apply main_init_wf|].
  exact (proj1 (main_step_wf_log _ a st st' Hstep IH)).
Qed.

(** On a well-formed tree that does not change between the scan and the
    stats, the start-up returns normally. *)
Lemma main_init_watching fs now a :
  fs_wf fs -> exists files w, main_init fs fs now a = Watching files w /\ wf w.
Proof.
  intros Hfs. unfold main_init. rewrite run_main_start, folder_analyze_Ok by done.
  set (B := (walk fs (depth a) (walk_fuel (depth a)) (folder_location a) []).2).
  destruct (add_list_run fs now (mkFileList (debug a) (log_file_location a)) B true empty_world
              (walk_statable fs _ _ _ Hfs)) as (w' & -> & Hp & _ & Hids & _).
  eexists _, _. split; [reflexivity|]. split; [by apply Hids, ids_ok_empty|].
  unfold paths_unique. rewrite Hp. by apply walk_nodup.
Qed.

Lemma main_poll_ok fs now a files w :
  fs_wf fs -> wf w -> exists w', main_poll fs fs now a files w = (Ok (), w') /\ wf w'.
Proof.
  intros Hfs Hw. pose proof (main_poll_wf_log fs fs now a files w Hw) as [Hw' _].
  rewrite run_main_poll, folder_analyze_Ok in * by done.
  destruct (compare_run fs now files _ w Hw (walk_statable fs (depth a) (walk_fuel (depth a)) (folder_location a) Hfs))
    as (w1 & _ & _ & _ & _ & Hc).
  rewrite Hc in Hw' |- *. by eexists.
Qed.

(** The state after one more poll, for the witnesses. *)
Definition is_watching (st : main_state) : bool :=
  match st with Watching _ _ => true | Stopped _ _ => false end.

Definition main_next (fs_scan fs_stat : tree_fs) (now : string) (a : Args) (st : main_state) : main_state :=
  match st with
  | Watching files w => poll_state files (main_poll fs_scan fs_stat now a files w)
  | Stopped e w => Stopped e w
  end.

Lemma reachable_next P a st fs_scan fs_stat now :
  reachable P a st -> P fs_scan fs_stat -> is_watching st = true ->
  reachable P a (main_next fs_scan fs_stat now a st).
Proof.
  intros Hr Hp Hw. destruct st as [files w|e w]; [|done].
  eapply reach_step; [exact Hr|]. by constructor.
Qed.

(** [n] polls on a tree that no longer changes, at the same date. *)
Fixpoint main_run (n : nat) (fs : tree_fs) (now : string) (a : Args) (st : main_state) : main_state :=
  match n with
  | O => st
  | S n' => main_run n' fs now a (main_next fs fs now a st)
  end.

Lemma main_next_compare fs now a files w :
  fs_wf fs -> wf w ->
  exists w', main_next fs fs now a (Watching files w) = Watching files w' /\ wf w' /\
    w' = (FileList.compare fs now files
            (walk fs (depth a) (walk_fuel (depth a)) (folder_location a) []).2 w).2.
Proof.
  intros Hfs Hw. cbn [main_next]. rewrite run_main_poll, folder_analyze_Ok by done.
  pose proof (compare_wf_log fs now files (records w)
    (walk fs (depth a) (walk_fuel (depth a)) (folder_location a) []).2 w
    ltac:(split; [done|reflexivity])) as [Hw' _].
  destruct (compare_run fs now files _ w Hw
    (walk_statable fs (depth a) (walk_fuel (depth a)) (folder_location a) Hfs))
    as (w1 & _ & _ & _ & _ & Hc).
  rewrite Hc in Hw' |- *. by eexists.
Qed.

(** On an unchanged well-formed tree, [n] polls are [n] calls of
    [compare] with the same scan, and every state on the way is reachable. *)
Lemma main_run_iter P fs now a files w n :
  fs_wf fs -> wf w -> P fs fs -> reachable P a (Watching files w) ->
  main_run n fs now a (Watching files w) =
    Watching files (compare_iter fs now files n
      (walk fs (depth a) (walk_fuel (depth a)) (folder_location a) []).2 w) /\
  reachable P a (main_run n fs now a (Watching files w)).
Proof.
  intros Hfs. revert w. induction n as [|n IH]; intros w Hw HP Hr; [done|].
  destruct (main_next_compare fs now a files w Hfs Hw) as (w' & Hn & Hw' & ->).
  cbn [main_run compare_iter]. rewrite Hn. apply IH; [done|done|].
  rewrite <- Hn. by apply reachable_next.
Qed.

(** ** Properties of the program *)

(** C24: Along any run whose scanned trees are well formed, whatever
    [os.stat] answers, the class-level state satisfies the invariant of
    [Compare.wf] (distinct identities below the counter, distinct paths),
    also after an exception stopped the program, and every step only
    appends to the log. *)
Theorem main_invariant a st :
  reachable (fun fs_scan _ => fs_wf fs_scan) a st ->
  wf (world_of st) /\
  forall st', main_step (fun fs_scan _ => fs_wf fs_scan) a st st' ->
    records (world_of st) `prefix_of` records (world_of st').
Proof.
  intros Hr. pose proof (reachable_wf a st Hr) as Hw. split; [done|].
  intros st' Hs. by apply (main_step_wf_log _ a st st' Hs Hw).
Qed.

(** C25: When the tree is well formed and does not change between the
    scan and the stats of a poll, the program never stops: every
    reachable state is watching, with the invariant. *)
Theorem main_never_stops a st :
  reachable (fun fs_scan fs_stat => fs_scan = fs_stat /\ fs_wf fs_scan) a st ->
  exists files w, st = Watching files w /\ wf w.
Proof.
  induction 1 as [fs_scan fs_stat now [<- Hfs]|st st' _ IH Hstep].
  - by apply main_init_watching.
  - destruct IH as (files & w & -> & Hw). inversion Hstep as [? ? fs_scan fs_stat now [<- Hfs]]; subst.
    destruct (main_poll_ok fs_scan now a files w Hfs Hw) as (w' & -> & Hw'). by eexists _, _.
Qed.

(** C27: Once the tree stops changing (and is well formed), a run whose
    scanned trees were well formed catches up: after more polls than
    there are tracked entries, the program, still watching, tracks
    exactly the paths of the scan, each with its current stat result. *)
Theorem main_converges a files w fs now n :
  reachable (fun fs_scan _ => fs_wf fs_scan) a (Watching files w) -> fs_wf fs ->
  length (fl_list w) < n ->
  exists l w', folder_analyze fs (folder_location a) (depth a) = Ok l /\
    main_run n fs now a (Watching files w) = Watching files w' /\
    reachable (fun fs_scan _ => fs_wf fs_scan) a (Watching files w') /\
    (forall p, p ∈ path <$> fl_list w' <-> p ∈ l) /\
    (forall p, p ∈ l -> snapshot (fl_list w') !! p = os_stat_of fs p).
Proof.
  intros Hr Hfs Hn. pose proof (reachable_wf a _ Hr) as Hw. simpl in Hw.
  destruct (main_run_iter (fun fs_scan _ => fs_wf fs_scan) fs now a files w n Hfs Hw Hfs Hr) as [Hrun Hrr].
  destruct (compare_iter_converges fs now files
    (walk fs (depth a) (walk_fuel (depth a)) (folder_location a) []).2 w n Hw
    (walk_statable fs (depth a) (walk_fuel (depth a)) (folder_location a) Hfs) Hn) as (_ & Hset & Hst).
  rewrite Hrun in Hrr |- *. eexists _, _. split; [by apply folder_analyze_Ok|]. done.
Qed.

(** C26: A file that is listed by the scan and deleted before its
    [os.stat] stops the program: if the scan of a poll is [B1 ++ p :: B2]
    where the paths of [B1] can be stat'ed and [p] no longer can, the
    poll ends in [Stopped (FileNotFoundError p)], a state with no
    successor; the state is well formed and, when [p] was new, the log
    already says "was added." for it.  The spec's error policy says such
    a path is skipped and never aborts a cycle. *)
Theorem main_race_stops P a files w fs_scan fs_stat now B1 p B2 :
  wf w -> P fs_scan fs_stat ->
  folder_analyze fs_scan (folder_location a) (depth a) = Ok (B1 ++ p :: B2) ->
  statable fs_stat B1 -> os_stat_of fs_stat p = None ->
  exists w', poll_state files (main_poll fs_scan fs_stat now a files w) =
               Stopped (FileNotFoundError p) w' /\
    main_step P a (Watching files w) (Stopped (FileNotFoundError p) w') /\
    (forall st', ~ main_step P a (Stopped (FileNotFoundError p) w') st') /\ wf w' /\
    (p ∉ path <$> fl_list w -> p ∉ B1 -> last (records w') = Some (event_line now p Added)).
Proof.
  intros Hw HP Hscan HB1 Hp.
  destruct (compare_raises_at fs_stat now files B1 p B2 w Hw HB1 Hp) as (w' & Hc & Hw' & Hlog).
  assert (E : poll_state files (main_poll fs_scan fs_stat now a files w) = Stopped (FileNotFoundError p) w')
    by (rewrite run_main_poll, Hscan, Hc; done).
  exists w'. split; [done|]. split; [rewrite <- E; by constructor|].
  split; [intros st' Hs; inversion Hs|done].
Qed.

(** ** Concrete runs *)

Definition a_ex : Args := mkArgs "/r" "/tmp/watch.log" false false 5 15.

(** [fs_ex] after [/r/n.txt] was created. *)
Definition fs_new : tree_fs :=
  <["/r/n.txt" := NFile (st_of 8 8)]>
    (<["/r" := NDir (st_of 1 1) [".git"; "d"; "a.txt"; ".env"; "n.txt"]]> fs_ex).

Lemma check_args_spec_witness :
  Forall (fun x => (String.eqb x "/r" || String.eqb x "/tmp/w.log") = true) ["/tmp/w.log"; "/r"] /\
  2 <= length ["/tmp/w.log"; "/r"] /\
  exists a', (check_args (fun x => String.eqb x "/r" || String.eqb x "/tmp/w.log") (fun _ => false)
                (mkArgs "/nope" "/nope.log" false false 42 0) ["/tmp/w.log"; "/r"]).1 = Ok a'.
Proof.
  assert (Hall : Forall (fun x => (String.eqb x "/r" || String.eqb x "/tmp/w.log") = true)
                   ["/tmp/w.log"; "/r"]) by by_compute.
  assert (Hlen : 2 <= length ["/tmp/w.log"; "/r"]) by (simpl; lia).
  split; [exact Hall|]. split; [exact Hlen|].
  exact (proj2 (check_args_spec (fun x => String.eqb x "/r" || String.eqb x "/tmp/w.log") (fun _ => false)
                  (mkArgs "/nope" "/nope.log" false false 42 0) ["/tmp/w.log"; "/r"]) Hall Hlen).
Defined.

Lemma main_invariant_witness :
  reachable (fun fs_scan _ => fs_wf fs_scan) a_ex (main_init fs_ex fs_new now_ex a_ex) /\
  wf (world_of (main_init fs_ex fs_new now_ex a_ex)) /\
  forall st', main_step (fun fs_scan _ => fs_wf fs_scan) a_ex (main_init fs_ex fs_new now_ex a_ex) st' ->
    records (world_of (main_init fs_ex fs_new now_ex a_ex)) `prefix_of` records (world_of st').
Proof.
  assert (Hr : reachable (fun fs_scan _ => fs_wf fs_scan) a_ex (main_init fs_ex fs_new now_ex a_ex))
    by (apply reach_init; by_compute).
  split; [exact Hr|]. exact (main_invariant a_ex _ Hr).
Defined.

Lemma main_never_stops_witness :
  reachable (fun fs_scan fs_stat => fs_scan = fs_stat /\ fs_wf fs_scan) a_ex
    (main_next fs_new fs_new now_ex a_ex (main_init fs_ex fs_ex now_ex a_ex)) /\
  exists files w, main_next fs_new fs_new now_ex a_ex (main_init fs_ex fs_ex now_ex a_ex) = Watching files w /\ wf w.
Proof.
  assert (Hr : reachable (fun fs_scan fs_stat => fs_scan = fs_stat /\ fs_wf fs_scan) a_ex
    (main_next fs_new fs_new now_ex a_ex (main_init fs_ex fs_ex now_ex a_ex))).
  { apply reachable_next; [apply reach_init; split; [done|by_compute]|split; [done|by_compute]|].
    vm_compute. reflexivity. }
  split; [exact Hr|]. exact (main_never_stops a_ex _ Hr).
Defined.

Lemma main_converges_witness :
  reachable (fun fs_scan _ => fs_wf fs_scan) a_ex
    (Watching (mkFileList false "/tmp/watch.log") (world_of (main_init fs_ex fs_ex now_ex a_ex))) /\
  fs_wf fs_new /\ length (fl_list (world_of (main_init fs_ex fs_ex now_ex a_ex))) < 6 /\
  exists l w', folder_analyze fs_new (folder_location a_ex) (depth a_ex) = Ok l /\
    main_run 6 fs_new now_ex a_ex
      (Watching (mkFileList false "/tmp/watch.log") (world_of (main_init fs_ex fs_ex now_ex a_ex))) =
      Watching (mkFileList false "/tmp/watch.log") w' /\
    reachable (fun fs_scan _ => fs_wf fs_scan) a_ex (Watching (mkFileList false "/tmp/watch.log") w') /\
    (forall p, p ∈ path <$> fl_list w' <-> p ∈ l) /\
    (forall p, p ∈ l -> snapshot (fl_list w') !! p = os_stat_of fs_new p).
Proof.
  assert (E : main_init fs_ex fs_ex now_ex a_ex =
    Watching (mkFileList false "/tmp/watch.log") (world_of (main_init fs_ex fs_ex now_ex a_ex)))
    by (vm_compute; reflexivity).
  assert (Hr : reachable (fun fs_scan _ => fs_wf fs_scan) a_ex
    (Watching (mkFileList false "/tmp/watch.log") (world_of (main_init fs_ex fs_ex now_ex a_ex))))
    by (rewrite <- E; apply reach_init; by_compute).
  assert (Hfs : fs_wf fs_new) by by_compute.
  assert (Hn : length (fl_list (world_of (main_init fs_ex fs_ex now_ex a_ex))) < 6) by (vm_compute; lia).
  split; [exact Hr|]. split; [exact Hfs|]. split; [exact Hn|].
  exact (main_converges a_ex _ _ fs_new now_ex 6 Hr Hfs Hn).
Defined.

Lemma main_race_stops_witness :
  wf (world_of (main_init fs_ex fs_ex now_ex a_ex)) /\ True /\
  folder_analyze fs_new (folder_location a_ex) (depth a_ex) =
    Ok (["/r/a.txt"] ++ "/r/n.txt" :: ["/r/.git"; "/r/d"; "/r/.git/config"; "/r/d/b.txt"]) /\
  statable fs_ex ["/r/a.txt"] /\ os_stat_of fs_ex "/r/n.txt" = None /\
  exists w', poll_state (mkFileList false "/tmp/watch.log")
               (main_poll fs_new fs_ex now_ex a_ex (mkFileList false "/tmp/watch.log")
                  (world_of (main_init fs_ex fs_ex now_ex a_ex))) =
               Stopped (FileNotFoundError "/r/n.txt") w' /\
    main_step (fun _ _ => True) a_ex
      (Watching (mkFileList false "/tmp/watch.log") (world_of (main_init fs_ex fs_ex now_ex a_ex)))
      (Stopped (FileNotFoundError "/r/n.txt") w') /\
    (forall st', ~ main_step (fun _ _ => True) a_ex (Stopped (FileNotFoundError "/r/n.txt") w') st') /\
    wf w' /\
    ("/r/n.txt" ∉ path <$> fl_list (world_of (main_init fs_ex fs_ex now_ex a_ex)) ->
     "/r/n.txt" ∉ ["/r/a.txt"] -> last (records w') = Some (event_line now_ex "/r/n.txt" Added)).
Proof.
  assert (Hw : wf (world_of (main_init fs_ex fs_ex now_ex a_ex))) by by_compute.
  assert (Hs : folder_analyze fs_new (folder_location a_ex) (depth a_ex) =
    Ok (["/r/a.txt"] ++ "/r/n.txt" :: ["/r/.git"; "/r/d"; "/r/.git/config"; "/r/d/b.txt"]))
    by (vm_compute; reflexivity).
  assert (HB : statable fs_ex ["/r/a.txt"]) by by_compute.
  assert (Hp : os_stat_of fs_ex "/r/n.txt" = None) by (vm_compute; reflexivity).
  split; [exact Hw|]. split; [exact I|]. split; [exact Hs|]. split; [exact HB|]. split; [exact Hp|].
  exact (main_race_stops (fun _ _ => True) a_ex (mkFileList false "/tmp/watch.log") _ fs_new fs_ex now_ex
           ["/r/a.txt"] "/r/n.txt" _ Hw I Hs HB Hp).
Defined.
